(** * plot_glm_day: fetching and plotting one day of GOES-16 GLM events

    A shallow embedding of [plot_glm_day.py].  The script is I/O
    orchestration, so the embedding is a small state-and-exception monad
    over an explicit interpreter state: the store of numpy arrays, the
    trace of requests sent to the object store, the floating-point
    warnings emitted and the figures shown.  The remote bucket, the
    dataset decoder and the elementwise logarithm are the environment
    ([World]). *)

From Stdlib Require Import PeanoNat List String Ascii Lia.
From Stdlib Require Import DecimalString Sorted Permutation OrderedTypeEx.
From Stdlib Require Import PrimFloat.
From stdpp Require Import base list strings gmap.

Local Open Scope string_scope.
Local Open Scope list_scope.
Local Open Scope nat_scope.

(** ** Python exceptions *)

Inductive exc_class : Type :=
| ValueError
| KeyError
| RuntimeError
| OSError
| SystemExit
| KeyboardInterrupt.

(** [except Exception] catches every class below [Exception]; [SystemExit]
    and [KeyboardInterrupt] derive from [BaseException] only. *)
Definition is_Exception (c : exc_class) : bool :=
  match c with
  | SystemExit | KeyboardInterrupt => false
  | _ => true
  end.

(** An exception object: its class and the text [str(exc)] gives. *)
Record exn : Type := Exn { exn_class : exc_class; exn_str : string }.

Definition Exc (A : Type) : Type := (exn + A)%type.

(** ** Text formatting *)

Definition decimal (n : nat) : string := NilZero.string_of_uint (Nat.to_uint n).

Fixpoint zeros (k : nat) : string :=
  match k with
  | O => ""
  | S k' => String "0" (zeros k')
  end.

(** [format(n, "0<w>d")] for a non-negative [n]: pad with zeros on the left
    up to width [w], never truncate. *)
Definition zfill (w : nat) (s : string) : string :=
  zeros (w - String.length s) +:+ s.

Definition fmt_02d (n : nat) : string := zfill 2 (decimal n).

(** ** datetime *)

Record datetime : Type := Datetime {
  year : nat; month : nat; day : nat;
  hour : nat; minute : nat; second : nat; microsecond : nat
}.

Definition is_leap (y : nat) : bool :=
  (y mod 4 =? 0) && (negb (y mod 100 =? 0) || (y mod 400 =? 0)).

Definition days_in_month (y m : nat) : nat :=
  match m with
  | 1 => 31 | 2 => if is_leap y then 29 else 28 | 3 => 31 | 4 => 30
  | 5 => 31 | 6 => 30 | 7 => 31 | 8 => 31 | 9 => 30 | 10 => 31
  | 11 => 30 | 12 => 31
  | _ => 0
  end.

Fixpoint days_before_month (y m : nat) : nat :=
  match m with
  | O => 0
  | S m' => match m' with
            | O => 0
            | _ => days_before_month y m' + days_in_month y m'
            end
  end.

Definition day_of_year (d : datetime) : nat :=
  days_before_month (year d) (month d) + day d.

(** [date.strftime("%Y")], [("%j")], and the [%Y-%m-%d] of the title.
    Whether a year below 1000 is padded to four digits depends on the C
    library; no statement below depends on it. *)
Definition strftime_Y (d : datetime) : string := zfill 4 (decimal (year d)).
Definition strftime_j (d : datetime) : string := zfill 3 (decimal (day_of_year d)).
Definition strftime_ymd (d : datetime) : string :=
  strftime_Y d +:+ "-" +:+ zfill 2 (decimal (month d)) +:+ "-" +:+ zfill 2 (decimal (day d)).

(** ** Characters

    A [string] holds the UTF-8 bytes of a Python [str]; this is how the
    arguments of the command line reach the script under a UTF-8 locale.
    A byte below 128 is an ASCII character, a longer well-formed sequence
    (shortest form, no surrogate, at most U+10FFFF) is one character, and
    a byte that starts no such sequence stands for a character that is
    neither ASCII nor a digit.  Comparing two strings byte by byte orders
    them by code point. *)

Definition byte (c : ascii) : N := N_of_ascii c.

(** The payload of a continuation byte [10xxxxxx]. *)
Definition continuation (s : string) : option (N * string) :=
  match s with
  | String c rest =>
      if ((128 <=? byte c) && (byte c <=? 191))%N
      then Some ((byte c - 128)%N, rest) else None
  | "" => None
  end.

(** The code point at the front of a string, and the rest. *)
Definition decode (s : string) : option (N * string) :=
  match s with
  | "" => None
  | String b0 s1 =>
      if (byte b0 <? 128)%N then Some (byte b0, s1)
      else if (byte b0 <? 192)%N then None
      else if (byte b0 <? 224)%N then
        match continuation s1 with
        | Some (c1, s2) =>
            let cp := ((byte b0 - 192) * 64 + c1)%N in
            if (128 <=? cp)%N then Some (cp, s2) else None
        | None => None
        end
      else if (byte b0 <? 240)%N then
        match continuation s1 with
        | Some (c1, s2) =>
            match continuation s2 with
            | Some (c2, s3) =>
                let cp := ((byte b0 - 224) * 4096 + c1 * 64 + c2)%N in
                if ((2048 <=? cp) && negb ((55296 <=? cp) && (cp <=? 57343)))%N
                then Some (cp, s3) else None
            | None => None
            end
        | None => None
        end
      else if (byte b0 <? 248)%N then
        match continuation s1 with
        | Some (c1, s2) =>
            match continuation s2 with
            | Some (c2, s3) =>
                match continuation s3 with
                | Some (c3, s4) =>
                    let cp := ((byte b0 - 240) * 262144 + c1 * 4096 + c2 * 64 + c3)%N in
                    if ((65536 <=? cp) && (cp <=? 1114111))%N
                    then Some (cp, s4) else None
                | None => None
                end
            | None => None
            end
        | None => None
        end
      else None
  end.

(** The decimal digits of all scripts (general category Nd) come in
    blocks of ten, zero to nine; these are the code points of the zeros,
    as of Unicode 14.0. *)
Definition digit_zeros : list N :=
  [48; 1632; 1776; 1984; 2406; 2534; 2662; 2790; 2918; 3046; 3174; 3302;
   3430; 3558; 3664; 3792; 3872; 4160; 4240; 6112; 6160; 6470; 6608; 6784;
   6800; 6992; 7088; 7232; 7248; 42528; 43216; 43264; 43472; 43504; 43600;
   44016; 65296; 66720; 68912; 69734; 69872; 69942; 70096; 70384; 70736;
   70864; 71248; 71360; 71472; 71904; 72016; 72784; 73040; 73120; 92768;
   92864; 93008; 120782; 120792; 120802; 120812; 120822; 123200; 123632;
   125264; 130032]%N.

(** The value of a decimal digit, as [int()] reads it. *)
Definition decimal_value (cp : N) : option nat :=
  match find (fun z => ((z <=? cp) && (cp <? z + 10))%N) digit_zeros with
  | Some z => Some (N.to_nat (cp - z))
  | None => None
  end.

(** ** [datetime.strptime(s, "%Y-%m-%d")]

    The format compiles to the regular expression
    [(\d\d\d\d)-(1[0-2]|0[1-9]|[1-9])-(3[0-1]|[1-2]\d|0[1-9]|[1-9]| [1-9])],
    matched at the start of the string with ordered alternatives; the
    whole string must be consumed, and the fields must form a calendar
    date.  A class such as [[1-9]] holds ASCII digits only; [\d] is a
    decimal digit of any script, and [int()] reads those as well. *)

Definition is_digit (c : ascii) : bool :=
  (48 <=? nat_of_ascii c) && (nat_of_ascii c <=? 57).

Definition digit_val (c : ascii) : nat := nat_of_ascii c - 48.

Definition in_range (lo hi : nat) (c : ascii) : bool :=
  is_digit c && (lo <=? digit_val c) && (digit_val c <=? hi).

(** One alternative of a group: the value read and the rest of the input. *)
Definition alt : Type := string -> option (nat * string).

(** [\d] *)
Definition any_digit : alt := fun s =>
  match decode s with
  | Some (cp, rest) =>
      match decimal_value cp with
      | Some v => Some (v, rest)
      | None => None
      end
  | None => None
  end.

(** Two characters, the first in [[a1..b1]], the second in [[a2..b2]]. *)
Definition two_digits (a1 b1 a2 b2 : nat) : alt := fun s =>
  match s with
  | String c1 (String c2 rest) =>
      if in_range a1 b1 c1 && in_range a2 b2 c2
      then Some (10 * digit_val c1 + digit_val c2, rest) else None
  | _ => None
  end.

Definition one_digit (a b : nat) : alt := fun s =>
  match s with
  | String c rest => if in_range a b c then Some (digit_val c, rest) else None
  | _ => None
  end.

(** A character in [[a..b]], then [\d]. *)
Definition digit_then_any (a b : nat) : alt := fun s =>
  match one_digit a b s with
  | Some (v1, s1) =>
      match any_digit s1 with
      | Some (v2, rest) => Some (10 * v1 + v2, rest)
      | None => None
      end
  | None => None
  end.

Definition space_digit (a b : nat) : alt := fun s =>
  match s with
  | String c1 (String c2 rest) =>
      if Ascii.eqb c1 " " && in_range a b c2 then Some (digit_val c2, rest) else None
  | _ => None
  end.

Definition month_alts : list alt :=
  [two_digits 1 1 0 2; two_digits 0 0 1 9; one_digit 1 9].

Definition day_alts : list alt :=
  [two_digits 3 3 0 1; digit_then_any 1 2; two_digits 0 0 1 9;
   one_digit 1 9; space_digit 1 9].

(** [\d\d\d\d] *)
Definition four_digits : alt := fun s =>
  match any_digit s with
  | Some (v1, s1) =>
      match any_digit s1 with
      | Some (v2, s2) =>
          match any_digit s2 with
          | Some (v3, s3) =>
              match any_digit s3 with
              | Some (v4, rest) =>
                  Some (1000 * v1 + 100 * v2 + 10 * v3 + v4, rest)
              | None => None
              end
          | None => None
          end
      | None => None
      end
  | None => None
  end.

Definition dash : string -> option string := fun s =>
  match s with
  | String c rest => if Ascii.eqb c "-" then Some rest else None
  | _ => None
  end.

(** Ordered choice with backtracking: the first alternative after which the
    continuation [k] succeeds. *)
Fixpoint first_match {A : Type} (alts : list alt) (k : nat -> string -> option A)
    (s : string) : option A :=
  match alts with
  | [] => None
  | a :: alts' =>
      match a s with
      | Some (v, rest) =>
          match k v rest with
          | Some r => Some r
          | None => first_match alts' k s
          end
      | None => first_match alts' k s
      end
  end.

(** The regular-expression match: year, month, day and the unconsumed rest. *)
Definition match_ymd (s : string) : option (nat * nat * nat * string) :=
  match four_digits s with
  | Some (y, s1) =>
      match dash s1 with
      | Some s2 =>
          first_match month_alts (fun m s3 =>
            match dash s3 with
            | Some s4 => first_match day_alts (fun d s5 => Some (y, m, d, s5)) s4
            | None => None
            end) s2
      | None => None
      end
  | None => None
  end.

Definition strptime_ymd (s : string) : Exc datetime :=
  match match_ymd s with
  | None =>
      inl (Exn ValueError ("time data '" +:+ s +:+ "' does not match format '%Y-%m-%d'"))
  | Some (y, m, d, rest) =>
      if negb (String.eqb rest "")
      then inl (Exn ValueError ("unconverted data remains: " +:+ rest))
      else if y =? 0
      then inl (Exn ValueError "year 0 is out of range")
      else if days_in_month y m <? d
      then inl (Exn ValueError "day is out of range for month")
      else inr (Datetime y m d 0 0 0 0)
  end.

(** ** argparse, for the parser built in [main]

    One positional [date] and the default [-h]/[--help].  Each argument is
    classified the way [ArgumentParser._parse_optional] does; [--] ends
    option processing. *)

Record Namespace : Type := { ns_date : string }.

Inductive arg_kind : Type :=
| APositional
| AHelp
| AExplicitArg   (* a help flag given a value: "ignored explicit argument" *)
| AUnknown.      (* an option the parser does not know *)

Definition has_char (c : ascii) (s : string) : bool :=
  existsb (Ascii.eqb c) (list_ascii_of_string s).

Fixpoint before_eq (s : string) : string :=
  match s with
  | "" => ""
  | String c rest => if Ascii.eqb c "=" then "" else String c (before_eq rest)
  end.

Fixpoint after_eq (s : string) : string :=
  match s with
  | "" => ""
  | String c rest => if Ascii.eqb c "=" then rest else after_eq rest
  end.

(** [\d*]: the input after its leading decimal digits.  Each digit takes
    at least one byte, so the length of the input is fuel enough. *)
Fixpoint skip_digits (fuel : nat) (s : string) : string :=
  match fuel with
  | O => s
  | S fuel' =>
      match any_digit s with
      | Some (_, rest) => skip_digits fuel' rest
      | None => s
      end
  end.

Definition drop_digits (s : string) : string := skip_digits (String.length s) s.

(** [\d+$]: at least one digit, then the end of the string or its final
    newline. *)
Definition digits_to_end (s : string) : bool :=
  match any_digit s with
  | Some _ =>
      String.eqb (drop_digits s) "" || String.eqb (drop_digits s) (String "010" "")
  | None => false
  end.

(** [^-\d+$|^-\d*\.\d+$] *)
Definition negative_number_like (s : string) : bool :=
  match s with
  | String c rest =>
      Ascii.eqb c "-" &&
      (digits_to_end rest ||
       match drop_digits rest with
       | String p frac => Ascii.eqb p "." && digits_to_end frac
       | "" => false
       end)
  | "" => false
  end.

Definition all_h (s : string) : bool :=
  forallb (Ascii.eqb "h") (list_ascii_of_string s).

Definition is_help_flag (s : string) : bool :=
  String.eqb s "-h" || String.eqb s "--help".

(** A help flag that came with a value.  After the one-letter flag the
    value is read as further one-letter flags, so [-hh] and [-h=h] are
    [-h] again; any other value is an "ignored explicit argument". *)
Definition flag_with_value (flag value : string) : arg_kind :=
  if String.eqb flag "-h" && negb (String.eqb value "") && all_h value
  then AHelp else AExplicitArg.

Definition classify (s : string) : arg_kind :=
  match s with
  | "" => APositional
  | String c rest =>
      if negb (Ascii.eqb c "-") then APositional
      else if is_help_flag s then AHelp
      else if String.eqb rest "" then APositional
      else if has_char "=" s && is_help_flag (before_eq s)
      then flag_with_value (before_eq s) (after_eq s)
      else if String.prefix "--" s && String.prefix (before_eq s) "--help"
      then (if has_char "=" s then AExplicitArg else AHelp)
      else if negb (String.prefix "--" s) && String.prefix "-h" s
      then flag_with_value "-h" (String.substring 2 (String.length s - 2) s)
      else if negative_number_like s then APositional
      else if has_char " " s then APositional
      else AUnknown
  end.

(** Left-to-right pass: the positionals and the unknown options seen, or
    the exit a help flag or a malformed flag causes on the spot. *)
Fixpoint scan_args (args pos extras : list string) : Exc (list string * list string) :=
  match args with
  | [] => inr (pos, extras)
  | a :: rest =>
      if String.eqb a "--" then inr (pos ++ rest, extras)
      else match classify a with
           | APositional => scan_args rest (pos ++ [a]) extras
           | AHelp => inl (Exn SystemExit "0")
           | AExplicitArg => inl (Exn SystemExit "2")
           | AUnknown => scan_args rest pos (extras ++ [a])
           end
  end.

(** [parser.parse_args()] on [sys.argv[1:]].  A usage error prints the
    usage text and raises [SystemExit(2)]. *)
Definition parse_args (argv : list string) : Exc Namespace :=
  match scan_args argv [] [] with
  | inl e => inl e
  | inr ([], _) => inl (Exn SystemExit "2")
  | inr ([d], []) => inr {| ns_date := d |}
  | inr _ => inl (Exn SystemExit "2")
  end.

(** ** The environment and the interpreter state *)

(** A numpy array of floats; the three GLM fields are one-dimensional. *)
Abbreviation ndarray := (list float).

(** The object store as [s3fs] shows it, the decoder [xr.open_dataset]
    (a dataset maps variable names to their values) and libm's [log10]. *)
Record World : Type := {
  s3_glob : string -> Exc (list string);
  s3_open : string -> Exc string;
  xr_open_dataset : string -> Exc (gmap string ndarray);
  log10 : float -> float
}.

Inductive NetOp : Type :=
| NetGlob (pattern : string)
| NetOpen (path : string).

Inductive Warning : Type :=
| DivideByZero    (* "divide by zero encountered in log10" *)
| InvalidValue.   (* "invalid value encountered in log10" *)

Record Figure : Type := {
  fig_size : nat * nat;
  coastlines : bool;
  scatter_x : ndarray;
  scatter_y : ndarray;
  scatter_c : ndarray;
  marker_size : nat;
  cmap : string;
  alpha : float;
  colorbar_label : string;
  title : string
}.

(** Arrays are objects: a reference is an index into [heap]. *)
Record State : Type := {
  heap : list ndarray;
  net : list NetOp;
  warnings : list Warning;
  shown : list Figure
}.

Definition Py (A : Type) : Type := State -> Exc A * State.

Definition ret {A : Type} (a : A) : Py A := fun st => (inr a, st).

Definition raise {A : Type} (e : exn) : Py A := fun st => (inl e, st).

Definition bind {A B : Type} (m : Py A) (k : A -> Py B) : Py B := fun st =>
  match m st with
  | (inr a, st') => k a st'
  | (inl e, st') => (inl e, st')
  end.

Definition lift {A : Type} (r : Exc A) : Py A := fun st => (r, st).

Declare Scope py_scope.
Delimit Scope py_scope with py.
Notation "x <- m ;; k" := (bind m (fun x => k))
  (at level 100, m at next level, right associativity) : py_scope.
Local Open Scope py_scope.

Definition alloc (a : ndarray) : Py nat := fun st =>
  (inr (length (heap st)),
   {| heap := heap st ++ [a]; net := net st;
      warnings := warnings st; shown := shown st |}).

(** Reading through a reference; references handed out by [alloc] are
    always live, so the failure branch is never taken by the script. *)
Definition read (r : nat) : Py ndarray := fun st =>
  match heap st !! r with
  | Some a => (inr a, st)
  | None => (inl (Exn RuntimeError "dangling reference"), st)
  end.

Definition request (op : NetOp) : Py unit := fun st =>
  (inr tt,
   {| heap := heap st; net := net st ++ [op];
      warnings := warnings st; shown := shown st |}).

Definition warn (wn : Warning) : Py unit := fun st =>
  (inr tt,
   {| heap := heap st; net := net st;
      warnings := warnings st ++ [wn]; shown := shown st |}).

Definition show (f : Figure) : Py unit := fun st =>
  (inr tt,
   {| heap := heap st; net := net st;
      warnings := warnings st; shown := shown st ++ [f] |}).

(** ** numpy *)

Fixpoint read_all (refs : list nat) : Py (list ndarray) :=
  match refs with
  | [] => ret []
  | r :: refs' =>
      a <- read r ;;
      rest <- read_all refs' ;;
      ret (a :: rest)
  end.

(** [np.concatenate(arrays)] for one-dimensional arrays: a new array; an
    empty list of arrays is rejected. *)
Definition np_concatenate (refs : list nat) : Py nat :=
  match refs with
  | [] => raise (Exn ValueError "need at least one array to concatenate")
  | _ =>
      arrs <- read_all refs ;;
      alloc (concat arrs)
  end.

Definition is_zero (x : float) : bool :=
  match PrimFloat.compare x 0%float with FEq => true | _ => false end.

Definition is_negative (x : float) : bool :=
  match PrimFloat.compare x 0%float with FLt => true | _ => false end.

Definition is_positive (x : float) : bool :=
  match PrimFloat.compare x 0%float with FGt => true | _ => false end.

Definition warn_if (b : bool) (wn : Warning) : Py unit :=
  if b then warn wn else ret tt.

(** [np.log10(a)]: a new array of the elementwise logarithms; a zero
    argument raises the divide-by-zero warning and a negative one the
    invalid-value warning (the values there, [-inf] and [nan], are those
    of [log10 w]).  The input array is only read. *)
Definition np_log10 (w : World) (r : nat) : Py nat :=
  a <- read r ;;
  _ <- warn_if (existsb is_zero a) DivideByZero ;;
  _ <- warn_if (existsb is_negative a) InvalidValue ;;
  alloc (map (log10 w) a).

(** ** [fetch_glm_day] *)

Definition bucket : string := "noaa-goes16".
Definition product : string := "GLM-L2-LCFA".

(** [f"noaa-goes16/GLM-L2-LCFA/{year}/{doy}/{hour:02d}/"] *)
Definition hour_prefix (yr doy : string) (h : nat) : string :=
  bucket +:+ "/" +:+ product +:+ "/" +:+ yr +:+ "/" +:+ doy +:+ "/" +:+ fmt_02d h +:+ "/".

(** [sorted(names)] on strings: ascending by code point.  Python's sort is
    stable; on a total order the result of any sort is the same list, and
    a plain insertion sort is used here. *)
Fixpoint insert_sorted (x : string) (l : list string) : list string :=
  match l with
  | [] => [x]
  | y :: l' => if String.leb x y then x :: l else y :: insert_sorted x l'
  end.

Definition sorted (l : list string) : list string :=
  fold_right insert_sorted [] l.

(** The [try] block of the loop: list one hour, wrapping any [Exception]. *)
Definition list_hour (w : World) (prefix : string) : Py (list string) :=
  _ <- request (NetGlob (prefix +:+ "*.nc")) ;;
  match s3_glob w (prefix +:+ "*.nc") with
  | inr names => ret (sorted names)
  | inl exc =>
      if is_Exception (exn_class exc)
      then raise (Exn RuntimeError
                    ("Failed to list files for " +:+ prefix +:+ ": " +:+ exn_str exc))
      else raise exc
  end.

(** [ds[name].values] *)
Definition ds_values (ds : gmap string ndarray) (name : string) : Py nat :=
  match ds !! name with
  | Some a => alloc a
  | None => raise (Exn KeyError name)
  end.

(** The three accumulators [lats], [lons], [energy]: lists of references. *)
Definition Acc : Type := (list nat * list nat * list nat)%type.

(** The body of the inner loop, for one object. *)
Definition read_object (w : World) (path : string) (acc : Acc) : Py Acc :=
  let '(lats, lons, energy) := acc in
  _ <- request (NetOpen path) ;;
  f <- lift (s3_open w path) ;;
  ds <- lift (xr_open_dataset w f) ;;
  la <- ds_values ds "event_lat" ;;
  lo <- ds_values ds "event_lon" ;;
  en <- ds_values ds "event_energy" ;;
  ret (lats ++ [la], lons ++ [lo], energy ++ [en]).

Fixpoint read_files (w : World) (files : list string) (acc : Acc) : Py Acc :=
  match files with
  | [] => ret acc
  | path :: files' =>
      acc' <- read_object w path acc ;;
      read_files w files' acc'
  end.

Definition read_hour (w : World) (yr doy : string) (h : nat) (acc : Acc) : Py Acc :=
  files <- list_hour w (hour_prefix yr doy h) ;;
  read_files w files acc.

Fixpoint read_hours (w : World) (yr doy : string) (hours : list nat) (acc : Acc) : Py Acc :=
  match hours with
  | [] => ret acc
  | h :: hours' =>
      acc' <- read_hour w yr doy h acc ;;
      read_hours w yr doy hours' acc'
  end.

Definition fetch_glm_day (w : World) (date : datetime) : Py (nat * nat * nat) :=
  let yr := strftime_Y date in
  let doy := strftime_j date in
  acc <- read_hours w yr doy (seq 0 24) ([], [], []) ;;
  let '(lats, lons, energy) := acc in
  la <- np_concatenate lats ;;
  lo <- np_concatenate lons ;;
  en <- np_concatenate energy ;;
  ret (la, lo, en).

(** ** [plot_events] *)

(** [ax.scatter(x, y, c=c, ...)]: the three arrays must have one size. *)
Definition scatter (x y c : nat) : Py (ndarray * ndarray * ndarray) :=
  xs <- read x ;;
  ys <- read y ;;
  cs <- read c ;;
  if negb (length xs =? length ys)
  then raise (Exn ValueError "x and y must be the same size")
  else if negb (length cs =? length xs)
  then raise (Exn ValueError "'c' argument is inconsistent with 'x' and 'y'")
  else ret (xs, ys, cs).

Definition plot_events (w : World) (lat lon energy : nat) (date : datetime) : Py unit :=
  c <- np_log10 w energy ;;
  sc <- scatter lon lat c ;;
  let '(xs, ys, cs) := sc in
  show {| fig_size := (10, 8);
          coastlines := true;
          scatter_x := xs;
          scatter_y := ys;
          scatter_c := cs;
          marker_size := 1;
          cmap := "turbo";
          alpha := 0x1.3333333333333p-1%float;   (* 0.6 *)
          colorbar_label := "log10(Event energy)";
          title := "GOES-16 GLM Events " +:+ strftime_ymd date |}.

(** ** [main] *)

Definition main (w : World) (argv : list string) : Py unit :=
  args <- lift (parse_args argv) ;;
  date <- lift (strptime_ymd (ns_date args)) ;;
  res <- fetch_glm_day w date ;;
  let '(lat, lon, energy) := res in
  plot_events w lat lon energy date.

(** ** Sample environments

    Small worlds on which the functions can be run. *)

(** Exact values of [log10] on the energies the samples use. *)
Definition sample_log10 (x : float) : float :=
  if PrimFloat.eqb x 1%float then 0%float
  else if PrimFloat.eqb x 10%float then 1%float
  else if PrimFloat.eqb x 100%float then 2%float
  else nan.

Definition init_state : State :=
  {| heap := []; net := []; warnings := []; shown := [] |}.

Definition new_year_2024 : datetime := Datetime 2024 1 1 0 0 0 0.

(** A bucket with no object at all. *)
Definition empty_world : World :=
  {| s3_glob := fun _ => inr [];
     s3_open := fun p => inl (Exn OSError p);
     xr_open_dataset := fun _ => inl (Exn ValueError "not a dataset");
     log10 := sample_log10 |}.

Definition obj_a : string := "noaa-goes16/GLM-L2-LCFA/2024/001/00/a.nc".
Definition obj_b : string := "noaa-goes16/GLM-L2-LCFA/2024/001/00/b.nc".
Definition obj_c : string := "noaa-goes16/GLM-L2-LCFA/2024/001/05/c.nc".

Definition glm_dataset (lat lon en : ndarray) : gmap string ndarray :=
  <["event_lat" := lat]> (<["event_lon" := lon]> (<["event_energy" := en]> ∅)).

(** Two objects in hour 00 (listed out of order), one in hour 05. *)
Definition sample_world : World :=
  {| s3_glob := fun pat =>
       if String.eqb pat "noaa-goes16/GLM-L2-LCFA/2024/001/00/*.nc"
       then inr [obj_b; obj_a]
       else if String.eqb pat "noaa-goes16/GLM-L2-LCFA/2024/001/05/*.nc"
       then inr [obj_c]
       else inr [];
     s3_open := fun p => inr p;
     xr_open_dataset := fun f =>
       if String.eqb f obj_a
       then inr (glm_dataset [1.5%float; 2.5%float] [(-70)%float; (-71)%float]
                             [10%float; 100%float])
       else if String.eqb f obj_b
       then inr (glm_dataset [3.5%float] [(-72)%float] [1%float])
       else if String.eqb f obj_c
       then inr (glm_dataset [4.5%float; 5.5%float; 6.5%float]
                             [(-73)%float; (-74)%float; (-75)%float]
                             [100%float; 10%float; 1%float])
       else inl (Exn ValueError "not a dataset");
     log10 := sample_log10 |}.

(** Listing hour 03 is refused; every other hour is empty. *)
Definition faulty_world : World :=
  {| s3_glob := fun pat =>
       if String.eqb pat "noaa-goes16/GLM-L2-LCFA/2024/001/03/*.nc"
       then inl (Exn OSError "Access Denied")
       else inr [];
     s3_open := fun p => inl (Exn OSError p);
     xr_open_dataset := fun _ => inl (Exn ValueError "not a dataset");
     log10 := sample_log10 |}.

(** Three arrays of two events each, as [plot_events] receives them. *)
Definition plot_state : State :=
  {| heap := [[1.5%float; 2.5%float]; [(-70)%float; (-71)%float];
              [10%float; 100%float]];
     net := []; warnings := []; shown := [] |}.


(** Three empty arrays. *)
Definition empty_arrays_state : State :=
  {| heap := [[]; []; []]; net := []; warnings := []; shown := [] |}.

(** ** Vocabulary of the statements *)

(** A computation never writes into an array that exists already. *)
Definition grows {A : Type} (m : Py A) : Prop :=
  forall st, heap st `prefix_of` heap (m st).2.

(** The references [refs] point, in [st], to the arrays [arrs]. *)
Definition holds (st : State) (refs : list nat) (arrs : list ndarray) : Prop :=
  Forall2 (fun r a => heap st !! r = Some a) refs arrs.

(** The three fields of one object, as [read_object] obtains them. *)
Definition Obj : Type := (ndarray * ndarray * ndarray)%type.

Definition obj_lat (o : Obj) : ndarray := o.1.1.
Definition obj_lon (o : Obj) : ndarray := o.1.2.
Definition obj_energy (o : Obj) : ndarray := o.2.

Definition object_arrays (w : World) (path : string) : Exc Obj :=
  match s3_open w path with
  | inl e => inl e
  | inr f =>
      match xr_open_dataset w f with
      | inl e => inl e
      | inr ds =>
          match ds !! "event_lat" with
          | None => inl (Exn KeyError "event_lat")
          | Some a =>
              match ds !! "event_lon" with
              | None => inl (Exn KeyError "event_lon")
              | Some b =>
                  match ds !! "event_energy" with
                  | None => inl (Exn KeyError "event_energy")
                  | Some c => inr (a, b, c)
                  end
              end
          end
      end
  end.

(** The glob pattern of hour [h] of the day of [d]. *)
Definition hour_pattern (d : datetime) (h : nat) : string :=
  hour_prefix (strftime_Y d) (strftime_j d) h +:+ "*.nc".

(** What hour [h] delivers when nothing faults: the listed names in sorted
    order, each with the arrays read from it. *)
Definition hour_ok (w : World) (d : datetime) (h : nat)
    (objs : list (string * Obj)) : Prop :=
  exists names,
    s3_glob w (hour_pattern d h) = inr names /\
    map fst objs = sorted names /\
    List.Forall (fun po => object_arrays w po.1 = inr po.2) objs.

(** The requests one fault-free hour sends. *)
Definition hour_trace (pattern : string) (objs : list (string * Obj)) : list NetOp :=
  NetGlob pattern :: map (fun po => NetOpen po.1) objs.

Definition hours_trace (pattern : nat -> string) (hours : list nat)
    (plan : list (list (string * Obj))) : list NetOp :=
  concat (zip_with (fun h objs => hour_trace (pattern h) objs) hours plan).

Definition day_trace (d : datetime) (plan : list (list (string * Obj))) : list NetOp :=
  hours_trace (hour_pattern d) (seq 0 24) plan.

(** The glob patterns among the requests of a trace. *)
Definition globs_of (tr : list NetOp) : list string :=
  omap (fun op => match op with NetGlob p => Some p | NetOpen _ => None end) tr.

(** The per-object schema: the three fields have one length, the event
    count of the object. *)
Definition well_formed (o : Obj) : Prop :=
  length (obj_lat o) = length (obj_lon o) /\
  length (obj_lat o) = length (obj_energy o).

Definition event_count (o : Obj) : nat := length (obj_lat o).

(** Every object of the bucket that opens follows the schema. *)
Definition schema_ok (w : World) : Prop :=
  forall p o, object_arrays w p = inr o -> well_formed o.

(** Plain lexical order on names. *)
Definition str_le (a b : string) : Prop := String.leb a b = true.

(** The pure content of the loops: what each hour delivers, or the first
    exception. *)
Definition listing (w : World) (prefix : string) : Exc (list string) :=
  match s3_glob w (prefix +:+ "*.nc") with
  | inr names => inr (sorted names)
  | inl exc =>
      if is_Exception (exn_class exc)
      then inl (Exn RuntimeError
                  ("Failed to list files for " +:+ prefix +:+ ": " +:+ exn_str exc))
      else inl exc
  end.

Fixpoint files_plan (w : World) (files : list string) : Exc (list (string * Obj)) :=
  match files with
  | [] => inr []
  | p :: files' =>
      match object_arrays w p with
      | inl e => inl e
      | inr o =>
          match files_plan w files' with
          | inl e => inl e
          | inr os => inr ((p, o) :: os)
          end
      end
  end.

Definition hour_plan (w : World) (yr doy : string) (h : nat) : Exc (list (string * Obj)) :=
  match listing w (hour_prefix yr doy h) with
  | inl e => inl e
  | inr files => files_plan w files
  end.

Fixpoint hours_plan (w : World) (yr doy : string) (hours : list nat)
    : Exc (list (list (string * Obj))) :=
  match hours with
  | [] => inr []
  | h :: hours' =>
      match hour_plan w yr doy h with
      | inl e => inl e
      | inr objs =>
          match hours_plan w yr doy hours' with
          | inl e => inl e
          | inr plan => inr (objs :: plan)
          end
      end
  end.

(** The objects of a plan, in the order they were read. *)
Definition plan_objs (plan : list (list (string * Obj))) : list Obj :=
  map snd (concat plan).

(** The boolean checks the sample runs use. *)
Definition lists_nothing (w : World) (d : datetime) (h : nat) : bool :=
  match s3_glob w (hour_pattern d h) with
  | inr [] => true
  | _ => false
  end.

(** ** Further vocabulary and samples *)

(** A computation keeps the relation [R] between the state before and the
    state after it, however it ends. *)
Definition keeps {A : Type} (R : State -> State -> Prop) (m : Py A) : Prop :=
  forall st, R st (m st).2.

(** Nothing written into an existing array, no warning, no figure. *)
Definition frame (st st' : State) : Prop :=
  heap st `prefix_of` heap st' /\
  warnings st' = warnings st /\
  shown st' = shown st.

(** The first of the three fields, in the order the loop reads them, that
    a dataset lacks. *)
Definition first_missing (ds : gmap string ndarray) : option string :=
  match ds !! "event_lat" with
  | None => Some "event_lat"
  | Some _ =>
      match ds !! "event_lon" with
      | None => Some "event_lon"
      | Some _ =>
          match ds !! "event_energy" with
          | None => Some "event_energy"
          | Some _ => None
          end
      end
  end.

(** [p] is among the names some hour listing of the day of [d] returned. *)
Definition listed (w : World) (d : datetime) (p : string) : Prop :=
  exists h names,
    h < 24 /\ s3_glob w (hour_pattern d h) = inr names /\ In p names.

(** Two views of one bucket: objects open and decode alike, and every
    listing returns the same names, possibly in another order. *)
Definition same_bucket (w1 w2 : World) : Prop :=
  (forall p, s3_open w1 p = s3_open w2 p) /\
  (forall f, xr_open_dataset w1 f = xr_open_dataset w2 f) /\
  (forall pat,
     match s3_glob w1 pat, s3_glob w2 pat with
     | inr l1, inr l2 => Permutation l1 l2
     | inl e1, inl e2 => e1 = e2
     | _, _ => False
     end).

(** The warnings [np.log10] emits on an array. *)
Definition log_warnings (a : ndarray) : list Warning :=
  (if existsb is_zero a then [DivideByZero] else []) ++
  (if existsb is_negative a then [InvalidValue] else []).

(** A calendar date at midnight, as [strptime] with a date-only format
    delivers it. *)
Definition calendar_date (d : datetime) : Prop :=
  1 <= year d < 100 * 100 /\
  1 <= month d <= 12 /\
  1 <= day d <= days_in_month (year d) (month d) /\
  hour d = 0 /\ minute d = 0 /\ second d = 0 /\ microsecond d = 0.

(** The sample bucket, with object b refusing to open. *)
Definition broken_world : World :=
  {| s3_glob := s3_glob sample_world;
     s3_open := fun p =>
       if String.eqb p obj_b then inl (Exn OSError "Connection reset") else inr p;
     xr_open_dataset := xr_open_dataset sample_world;
     log10 := sample_log10 |}.

(** The sample bucket, with object b lacking its longitudes. *)
Definition missing_field_world : World :=
  {| s3_glob := s3_glob sample_world;
     s3_open := s3_open sample_world;
     xr_open_dataset := fun f =>
       if String.eqb f obj_b
       then inr (<["event_lat" := [3.5%float]]> (<["event_energy" := [1%float]]> ∅))
       else xr_open_dataset sample_world f;
     log10 := sample_log10 |}.

(** An empty bucket; the listing of hour 03 is interrupted from the
    keyboard. *)
Definition interrupted_world : World :=
  {| s3_glob := fun pat =>
       if String.eqb pat "noaa-goes16/GLM-L2-LCFA/2024/001/03/*.nc"
       then inl (Exn KeyboardInterrupt "")
       else inr [];
     s3_open := fun p => inl (Exn OSError p);
     xr_open_dataset := fun _ => inl (Exn ValueError "not a dataset");
     log10 := sample_log10 |}.

(** The sample bucket, listing hour 00 in the other order. *)
Definition permuted_world : World :=
  {| s3_glob := fun pat =>
       if String.eqb pat "noaa-goes16/GLM-L2-LCFA/2024/001/00/*.nc"
       then inr [obj_a; obj_b]
       else s3_glob sample_world pat;
     s3_open := s3_open sample_world;
     xr_open_dataset := xr_open_dataset sample_world;
     log10 := sample_log10 |}.

(** Latitudes and longitudes of different sizes. *)
Definition mismatched_state : State :=
  {| heap := [[1.5%float; 2.5%float]; [(-70)%float]; [10%float; 100%float]];
     net := []; warnings := []; shown := [] |}.

(** An energy of zero and a negative one. *)
Definition unphysical_state : State :=
  {| heap := [[1.5%float; 2.5%float]; [(-70)%float; (-71)%float];
              [0%float; (-1)%float]];
     net := []; warnings := []; shown := [] |}.





(** The form [YYYY-MM-DD] of the usage text, taken by the letter: four
    digits, a dash, two digits, a dash, two digits. *)
Definition yyyy_mm_dd (s : string) : bool :=
  match list_ascii_of_string s with
  | [y1; y2; y3; y4; s1; m1; m2; s2; d1; d2] =>
      forallb is_digit [y1; y2; y3; y4; m1; m2; d1; d2] &&
      Ascii.eqb s1 "-" && Ascii.eqb s2 "-"
  | _ => false
  end.

(** The date [2024-01-2x] with the last digit written as the Arabic-Indic
    digit three, U+0663. *)
Definition arabic_indic_date : string :=
  "2024-01-2" +:+ String (ascii_of_nat 217) (String (ascii_of_nat 163) "").




(** * Properties *)

(** ** The monad *)

Lemma bind_ok {A B : Type} (m : Py A) (k : A -> Py B) st a st1 :
  m st = (inr a, st1) -> bind m k st = k a st1.
Proof. intros H. unfold bind. now rewrite H. Qed.

Lemma bind_err {A B : Type} (m : Py A) (k : A -> Py B) st e st1 :
  m st = (inl e, st1) -> bind m k st = (inl e, st1).
Proof. intros H. unfold bind. now rewrite H. Qed.

Lemma bind_inv_ok {A B : Type} (m : Py A) (k : A -> Py B) st b st' :
  bind m k st = (inr b, st') ->
  exists a st1, m st = (inr a, st1) /\ k a st1 = (inr b, st').
Proof.
  unfold bind. destruct (m st) as [[e|a] st1]; intros H.
  - discriminate.
  - now exists a, st1.
Qed.

Lemma lift_inv_ok {A : Type} (r : Exc A) st a st' :
  lift r st = (inr a, st') -> r = inr a /\ st' = st.
Proof. unfold lift. intros H. now inversion H. Qed.

(** ** The array store only grows

    No operation of the script writes into an existing array: the heap
    after any computation extends the heap before it. *)

Lemma grows_ret {A : Type} (a : A) : grows (ret a).
Proof. intros st. reflexivity. Qed.

Lemma grows_raise {A : Type} (e : exn) : grows (@raise A e).
Proof. intros st. reflexivity. Qed.

Lemma grows_lift {A : Type} (r : Exc A) : grows (lift r).
Proof. intros st. reflexivity. Qed.

Lemma grows_bind {A B : Type} (m : Py A) (k : A -> Py B) :
  grows m -> (forall a, grows (k a)) -> grows (bind m k).
Proof.
  intros Hm Hk st. unfold bind. specialize (Hm st).
  destruct (m st) as [[e|a] st1]; simpl in *.
  - exact Hm.
  - etransitivity; [exact Hm | apply Hk].
Qed.

Lemma grows_alloc a : grows (alloc a).
Proof. intros st. simpl. now apply prefix_app_r. Qed.

Lemma grows_read r : grows (read r).
Proof. intros st. unfold read. now destruct (heap st !! r). Qed.

Lemma grows_request op : grows (request op).
Proof. intros st. reflexivity. Qed.

Lemma grows_warn wn : grows (warn wn).
Proof. intros st. reflexivity. Qed.

Lemma grows_show f : grows (show f).
Proof. intros st. reflexivity. Qed.

Lemma grows_warn_if b wn : grows (warn_if b wn).
Proof. destruct b; [apply grows_warn | apply grows_ret]. Qed.

Create HintDb grows_db.
#[local] Hint Resolve grows_ret grows_raise grows_lift grows_alloc grows_read
  grows_request grows_warn grows_show grows_warn_if : grows_db.

Ltac grows_step :=
  repeat first
    [ apply grows_bind; [ | intros ? ]
    | solve [ auto with grows_db ] ].

Lemma grows_np_log10 w r : grows (np_log10 w r).
Proof. unfold np_log10. grows_step. Qed.

Lemma grows_scatter x y c : grows (scatter x y c).
Proof.
  unfold scatter. grows_step.
  repeat match goal with |- grows (if ?b then _ else _) => destruct b end;
    auto with grows_db.
Qed.

Lemma grows_plot_events w lat lon energy date :
  grows (plot_events w lat lon energy date).
Proof.
  unfold plot_events.
  apply grows_bind; [apply grows_np_log10 | intros c].
  apply grows_bind; [apply grows_scatter | intros [[xs ys] cs]].
  apply grows_show.
Qed.

(** ** The logarithm on positive energies *)

Lemma positive_not_zero x : is_positive x = true -> is_zero x = false.
Proof. unfold is_positive, is_zero. now destruct (PrimFloat.compare x 0). Qed.

Lemma positive_not_negative x : is_positive x = true -> is_negative x = false.
Proof. unfold is_positive, is_negative. now destruct (PrimFloat.compare x 0). Qed.

Lemma existsb_false_of_Forall {A : Type} (p q : A -> bool) (l : list A) :
  (forall x, p x = true -> q x = false) ->
  List.Forall (fun x => p x = true) l -> existsb q l = false.
Proof.
  intros Hpq Hl. induction Hl as [|x l Hx _ IH]; simpl.
  - reflexivity.
  - now rewrite (Hpq x Hx), IH.
Qed.

(** On an array of positive numbers [np.log10] warns about nothing and
    allocates the elementwise logarithms. *)
Lemma np_log10_positive w r a st :
  heap st !! r = Some a ->
  List.Forall (fun x => is_positive x = true) a ->
  np_log10 w r st =
    (inr (length (heap st)),
     {| heap := heap st ++ [map (log10 w) a]; net := net st;
        warnings := warnings st; shown := shown st |}).
Proof.
  intros Hr Hpos. unfold np_log10, bind, read. rewrite Hr.
  rewrite (existsb_false_of_Forall _ _ _ positive_not_zero Hpos).
  rewrite (existsb_false_of_Forall _ _ _ positive_not_negative Hpos).
  reflexivity.
Qed.

(** What [scatter] and [show] leave alone. *)
Lemma scatter_state x y c st : (scatter x y c st).2 = st.
Proof.
  unfold scatter, bind, read.
  destruct (heap st !! x); [|reflexivity].
  destruct (heap st !! y); [|reflexivity].
  destruct (heap st !! c); [|reflexivity].
  repeat match goal with |- context [if ?b then _ else _] => destruct b end;
    reflexivity.
Qed.

(** Whatever the input, [np.log10] allocates exactly one array, the
    elementwise logarithm, and writes nowhere else. *)
Lemma np_log10_heap w r a st :
  heap st !! r = Some a ->
  heap (np_log10 w r st).2 = heap st ++ [map (log10 w) a].
Proof.
  intros Hr. unfold np_log10, bind, read, warn_if. rewrite Hr.
  destruct (existsb is_zero a), (existsb is_negative a); reflexivity.
Qed.

(** After its logarithm step, [plot_events] touches neither the heap, nor
    the warnings, nor the network trace. *)
Lemma plot_events_after_log w lat lon energy date st :
  let st1 := (np_log10 w energy st).2 in
  let st' := (plot_events w lat lon energy date st).2 in
  heap st' = heap st1 /\ warnings st' = warnings st1 /\ net st' = net st1.
Proof.
  unfold plot_events, bind.
  destruct (np_log10 w energy st) as [[e|c] st1]; simpl; [easy|].
  pose proof (scatter_state lon lat c st1) as Hsc.
  destruct (scatter lon lat c st1) as [[e|[[xs ys] cs]] st2]; simpl in *; subst; easy.
Qed.

(** C10: [plot_events] leaves its three input arrays as they were: the
    arrays behind [lat], [lon] and [energy] hold the same elements after
    the call as before it (also when two of them are one array), and the
    logarithms go to a newly allocated array. *)
Theorem plot_events_preserves_inputs w lat lon energy date st la lo en :
  heap st !! lat = Some la ->
  heap st !! lon = Some lo ->
  heap st !! energy = Some en ->
  let st' := (plot_events w lat lon energy date st).2 in
  heap st' !! lat = Some la /\
  heap st' !! lon = Some lo /\
  heap st' !! energy = Some en /\
  heap st' = heap st ++ [map (log10 w) en].
Proof.
  intros Hla Hlo Hen st'.
  assert (Hheap : heap st' = heap st ++ [map (log10 w) en]).
  { subst st'.
    destruct (plot_events_after_log w lat lon energy date st) as (Hh & _ & _).
    rewrite Hh. now apply np_log10_heap. }
  rewrite Hheap.
  repeat split; try (apply lookup_app_l_Some; assumption).
Qed.

Lemma plot_events_preserves_inputs_witness :
  heap (plot_events sample_world 0 1 2 new_year_2024 plot_state).2 !! 0
    = Some [1.5%float; 2.5%float] /\
  heap (plot_events sample_world 0 1 2 new_year_2024 plot_state).2 !! 1
    = Some [(-70)%float; (-71)%float] /\
  heap (plot_events sample_world 0 1 2 new_year_2024 plot_state).2 !! 2
    = Some [10%float; 100%float] /\
  heap (plot_events sample_world 0 1 2 new_year_2024 plot_state).2
    = heap plot_state ++ [map (log10 sample_world) [10%float; 100%float]].
Proof.
  apply (plot_events_preserves_inputs sample_world 0 1 2 new_year_2024 plot_state
           [1.5%float; 2.5%float] [(-70)%float; (-71)%float]
           [10%float; 100%float]); reflexivity.
Defined.

(** C8: when every energy is strictly positive, the base-10 logarithm of
    [plot_events] is applied to positive arguments only: neither the
    divide-by-zero nor the invalid-value warning of [np.log10] is raised,
    and the colour array is the elementwise logarithm of the energies. *)
Theorem plot_events_log_of_positive w lat lon energy date st en :
  heap st !! energy = Some en ->
  List.Forall (fun x => is_positive x = true) en ->
  let st' := (plot_events w lat lon energy date st).2 in
  warnings st' = warnings st /\
  existsb is_zero en = false /\
  existsb is_negative en = false /\
  heap st' !! length (heap st) = Some (map (log10 w) en).
Proof.
  intros Hen Hpos st'. subst st'.
  destruct (plot_events_after_log w lat lon energy date st) as (Hh & Hw & _).
  rewrite Hh, Hw, (np_log10_positive w energy en st Hen Hpos). simpl.
  split; [reflexivity|].
  split; [exact (existsb_false_of_Forall _ _ _ positive_not_zero Hpos)|].
  split; [exact (existsb_false_of_Forall _ _ _ positive_not_negative Hpos)|].
  now rewrite lookup_app_r, Nat.sub_diag.
Qed.

Lemma plot_events_log_of_positive_witness :
  warnings (plot_events sample_world 0 1 2 new_year_2024 plot_state).2 = [] /\
  existsb is_zero [10%float; 100%float] = false /\
  existsb is_negative [10%float; 100%float] = false /\
  heap (plot_events sample_world 0 1 2 new_year_2024 plot_state).2 !! 3
    = Some (map (log10 sample_world) [10%float; 100%float]).
Proof.
  apply (plot_events_log_of_positive sample_world 0 1 2 new_year_2024 plot_state
           [10%float; 100%float]).
  - reflexivity.
  - repeat constructor.
Defined.

(** ** References and the arrays behind them *)

Lemma holds_mono st st' refs arrs :
  holds st refs arrs -> heap st `prefix_of` heap st' -> holds st' refs arrs.
Proof.
  intros H Hpre. unfold holds in *.
  eapply Forall2_impl; [exact H|].
  intros r a Hr. simpl in Hr. eapply prefix_lookup_Some; eassumption.
Qed.

Lemma holds_snoc st refs arrs r a :
  holds st refs arrs -> heap st !! r = Some a ->
  holds st (refs ++ [r]) (arrs ++ [a]).
Proof.
  intros H Hr. unfold holds in *. apply Forall2_app; [exact H|].
  now constructor.
Qed.

Lemma holds_nil_inv st refs : holds st refs [] -> refs = [].
Proof. intros H. now inversion H. Qed.

Lemma holds_cons_inv st refs a arrs :
  holds st refs (a :: arrs) -> exists r refs', refs = r :: refs'.
Proof. intros H. inversion H; subst. eauto. Qed.

Lemma read_all_holds st refs arrs :
  holds st refs arrs -> read_all refs st = (inr arrs, st).
Proof.
  intros H. induction H as [|r a refs arrs Hr _ IH]; simpl.
  - reflexivity.
  - unfold bind, read. rewrite Hr, IH. reflexivity.
Qed.

(** [read] and [read_all] never change the state. *)
Lemma read_state r st : (read r st).2 = st.
Proof. unfold read. now destruct (heap st !! r). Qed.

Lemma read_all_state refs st : (read_all refs st).2 = st.
Proof.
  induction refs as [|r refs IH]; simpl; [reflexivity|].
  unfold bind. pose proof (read_state r st) as Hr.
  destruct (read r st) as [[e|a] st1]; simpl in *; subst; [reflexivity|].
  destruct (read_all refs st) as [[e|l] st1] eqn:E; simpl in *; now subst.
Qed.

(** On live references to at least one array, [np.concatenate] allocates
    the concatenation. *)
Lemma np_concatenate_holds st refs arrs :
  holds st refs arrs -> arrs <> [] ->
  np_concatenate refs st = alloc (concat arrs) st.
Proof.
  intros H Hne. destruct arrs as [|a arrs]; [contradiction|].
  destruct (holds_cons_inv _ _ _ _ H) as (r & refs' & ->).
  unfold np_concatenate. now rewrite (bind_ok _ _ _ _ _ (read_all_holds _ _ _ H)).
Qed.

Lemma np_concatenate_net refs st : net (np_concatenate refs st).2 = net st.
Proof.
  unfold np_concatenate. destruct refs as [|r refs]; [reflexivity|].
  unfold bind. pose proof (read_all_state (r :: refs) st) as Hs.
  destruct (read_all (r :: refs) st) as [[e|l] st1]; simpl in *; now subst.
Qed.




(** ** One object *)

#[local] Arguments read_object : simpl never.
#[local] Arguments object_arrays : simpl never.

(** The state after the three fields of an object were stored. *)
Lemma read_object_ok w p a b c la lo en st :
  object_arrays w p = inr (a, b, c) ->
  read_object w p (la, lo, en) st =
    (inr (la ++ [length (heap st)], lo ++ [S (length (heap st))],
          en ++ [S (S (length (heap st)))]),
     {| heap := heap st ++ [a; b; c]; net := net st ++ [NetOpen p];
        warnings := warnings st; shown := shown st |}).
Proof.
  unfold object_arrays, read_object, bind, request, lift, ds_values, alloc, ret.
  simpl.
  destruct (s3_open w p) as [e|f]; [discriminate|].
  destruct (xr_open_dataset w f) as [e|ds]; [discriminate|].
  destruct (ds !! "event_lat") as [a'|]; [|discriminate].
  destruct (ds !! "event_lon") as [b'|]; [|discriminate].
  destruct (ds !! "event_energy") as [c'|]; [|discriminate].
  intros [= -> -> ->]. simpl.
  rewrite !length_app. simpl. rewrite <- !(assoc_L (++)). simpl.
  repeat f_equal; lia.
Qed.

Lemma read_object_err w p e acc st :
  object_arrays w p = inl e -> (read_object w p acc st).1 = inl e.
Proof.
  destruct acc as [[la lo] en].
  unfold object_arrays, read_object, bind, request, lift, ds_values, alloc, raise.
  simpl.
  destruct (s3_open w p) as [e1|f]; [now intros [= ->]|].
  destruct (xr_open_dataset w f) as [e1|ds]; [now intros [= ->]|].
  destruct (ds !! "event_lat") as [a'|]; [|now intros [= <-]].
  destruct (ds !! "event_lon") as [b'|]; [|now intros [= <-]].
  destruct (ds !! "event_energy") as [c'|]; [|now intros [= <-]].
  discriminate.
Qed.

(** Whatever happens, reading an object sends exactly one request. *)
Lemma read_object_net w p acc st :
  net (read_object w p acc st).2 = net st ++ [NetOpen p].
Proof.
  destruct acc as [[la lo] en].
  unfold read_object, bind, request, lift, ds_values, alloc, raise, ret.
  simpl.
  destruct (s3_open w p) as [e1|f]; [reflexivity|].
  destruct (xr_open_dataset w f) as [e1|ds]; [reflexivity|].
  destruct (ds !! "event_lat") as [a'|]; [|reflexivity].
  destruct (ds !! "event_lon") as [b'|]; [|reflexivity].
  destruct (ds !! "event_energy") as [c'|]; reflexivity.
Qed.

(** ** The objects of one hour *)

Lemma files_plan_ok w files objs :
  files_plan w files = inr objs ->
  map fst objs = files /\
  List.Forall (fun po => object_arrays w po.1 = inr po.2) objs.
Proof.
  revert objs. induction files as [|p files IH]; simpl; intros objs.
  - intros [= <-]. split; constructor.
  - destruct (object_arrays w p) as [e|o] eqn:Ho; [discriminate|].
    destruct (files_plan w files) as [e|os]; [discriminate|].
    intros [= <-]. destruct (IH os eq_refl) as [Hm Hf].
    split; simpl; [now rewrite Hm | now constructor].
Qed.

Lemma read_files_spec w files : forall la lo en st As Bs Cs,
  holds st la As -> holds st lo Bs -> holds st en Cs ->
  match files_plan w files with
  | inl e => (read_files w files (la, lo, en) st).1 = inl e
  | inr objs =>
      exists la' lo' en' st',
        read_files w files (la, lo, en) st = (inr (la', lo', en'), st') /\
        holds st' la' (As ++ map obj_lat (map snd objs)) /\
        holds st' lo' (Bs ++ map obj_lon (map snd objs)) /\
        holds st' en' (Cs ++ map obj_energy (map snd objs)) /\
        heap st `prefix_of` heap st' /\
        net st' = net st ++ map (fun po => NetOpen po.1) objs
  end.
Proof.
  induction files as [|p files IH]; simpl; intros la lo en st As Bs Cs Ha Hb Hc.
  - exists la, lo, en, st. rewrite !app_nil_r. now repeat split.
  - destruct (object_arrays w p) as [e|[[a b] c]] eqn:Ho.
    + unfold bind. pose proof (read_object_err w p e (la, lo, en) st Ho) as He.
      destruct (read_object w p (la, lo, en) st) as [[e'|acc'] st1]; simpl in *;
        congruence.
    + pose proof (read_object_ok w p a b c la lo en st Ho) as Hok.
      rewrite (bind_ok _ _ _ _ _ Hok).
      set (st1 := {| heap := heap st ++ [a; b; c]; net := net st ++ [NetOpen p];
                     warnings := warnings st; shown := shown st |}) in *.
      assert (Hpre : heap st `prefix_of` heap st1) by (now apply prefix_app_r).
      assert (Ha1 : holds st1 (la ++ [length (heap st)]) (As ++ [a])).
      { apply holds_snoc; [now apply (holds_mono st)|]. simpl.
        now rewrite lookup_app_r, Nat.sub_diag. }
      assert (Hb1 : holds st1 (lo ++ [S (length (heap st))]) (Bs ++ [b])).
      { apply holds_snoc; [now apply (holds_mono st)|]. simpl.
        rewrite lookup_app_r by lia.
        now replace (S (length (heap st)) - length (heap st)) with 1 by lia. }
      assert (Hc1 : holds st1 (en ++ [S (S (length (heap st)))]) (Cs ++ [c])).
      { apply holds_snoc; [now apply (holds_mono st)|]. simpl.
        rewrite lookup_app_r by lia.
        now replace (S (S (length (heap st))) - length (heap st)) with 2 by lia. }
      specialize (IH _ _ _ st1 _ _ _ Ha1 Hb1 Hc1).
      destruct (files_plan w files) as [e|os]; [exact IH|].
      destruct IH as (la' & lo' & en' & st' & Hrun & Ha' & Hb' & Hc' & Hp' & Hn').
      exists la', lo', en', st'. simpl.
      rewrite <- !(assoc_L (++)) in Ha', Hb', Hc'. simpl in Ha', Hb', Hc'.
      repeat split; try assumption.
      * etransitivity; eassumption.
      * rewrite Hn'. simpl. now rewrite <- (assoc_L (++)).
Qed.



(** ** One hour, and the hours of the day *)

#[local] Arguments list_hour : simpl never.
#[local] Arguments read_hour : simpl never.
#[local] Arguments hour_plan : simpl never.
#[local] Arguments np_concatenate : simpl never.

(** Listing an hour sends one glob request and delivers [listing]. *)
Lemma list_hour_eq w prefix st :
  list_hour w prefix st =
    (listing w prefix,
     {| heap := heap st; net := net st ++ [NetGlob (prefix +:+ "*.nc")];
        warnings := warnings st; shown := shown st |}).
Proof.
  unfold list_hour, listing, bind, request, ret, raise. simpl.
  destruct (s3_glob w (prefix +:+ "*.nc")) as [exc|names]; [|reflexivity].
  now destruct (is_Exception (exn_class exc)).
Qed.

Lemma read_hour_spec w yr doy h la lo en st As Bs Cs :
  holds st la As -> holds st lo Bs -> holds st en Cs ->
  match hour_plan w yr doy h with
  | inl e => (read_hour w yr doy h (la, lo, en) st).1 = inl e
  | inr objs =>
      exists la' lo' en' st',
        read_hour w yr doy h (la, lo, en) st = (inr (la', lo', en'), st') /\
        holds st' la' (As ++ map obj_lat (map snd objs)) /\
        holds st' lo' (Bs ++ map obj_lon (map snd objs)) /\
        holds st' en' (Cs ++ map obj_energy (map snd objs)) /\
        heap st `prefix_of` heap st' /\
        net st' = net st ++ hour_trace (hour_prefix yr doy h +:+ "*.nc") objs
  end.
Proof.
  intros Ha Hb Hc. unfold hour_plan, read_hour, bind. rewrite list_hour_eq.
  destruct (listing w (hour_prefix yr doy h)) as [e|files]; [reflexivity|].
  set (st1 := {| heap := heap st; net := _; warnings := _; shown := _ |}).
  pose proof (read_files_spec w files la lo en st1 As Bs Cs Ha Hb Hc) as H.
  destruct (files_plan w files) as [e|objs]; [exact H|].
  destruct H as (la' & lo' & en' & st' & Hrun & Ha' & Hb' & Hc' & Hp' & Hn').
  exists la', lo', en', st'. repeat split; try assumption.
  rewrite Hn'. unfold hour_trace. simpl. now rewrite <- (assoc_L (++)).
Qed.


Lemma read_hours_spec w yr doy hours : forall la lo en st As Bs Cs,
  holds st la As -> holds st lo Bs -> holds st en Cs ->
  match hours_plan w yr doy hours with
  | inl e => (read_hours w yr doy hours (la, lo, en) st).1 = inl e
  | inr plan =>
      exists la' lo' en' st',
        read_hours w yr doy hours (la, lo, en) st = (inr (la', lo', en'), st') /\
        holds st' la' (As ++ map obj_lat (plan_objs plan)) /\
        holds st' lo' (Bs ++ map obj_lon (plan_objs plan)) /\
        holds st' en' (Cs ++ map obj_energy (plan_objs plan)) /\
        heap st `prefix_of` heap st' /\
        net st' = net st ++
          hours_trace (fun h => hour_prefix yr doy h +:+ "*.nc") hours plan
  end.
Proof.
  induction hours as [|h hours IH]; simpl; intros la lo en st As Bs Cs Ha Hb Hc.
  - exists la, lo, en, st. unfold plan_objs, hours_trace. simpl.
    rewrite !app_nil_r. now repeat split.
  - pose proof (read_hour_spec w yr doy h la lo en st As Bs Cs Ha Hb Hc) as Hh.
    destruct (hour_plan w yr doy h) as [e|objs].
    + unfold bind.
      destruct (read_hour w yr doy h (la, lo, en) st) as [[e'|acc'] st1];
        simpl in *; congruence.
    + destruct Hh as (la1 & lo1 & en1 & st1 & Hrun & Ha1 & Hb1 & Hc1 & Hp1 & Hn1).
      rewrite (bind_ok _ _ _ _ _ Hrun).
      specialize (IH _ _ _ st1 _ _ _ Ha1 Hb1 Hc1).
      destruct (hours_plan w yr doy hours) as [e|plan]; [exact IH|].
      destruct IH as (la' & lo' & en' & st' & Hrun' & Ha' & Hb' & Hc' & Hp' & Hn').
      exists la', lo', en', st'.
      unfold plan_objs in *. simpl. rewrite !map_app, !(assoc_L (++)).
      repeat split; try assumption.
      * etransitivity; eassumption.
      * rewrite Hn', Hn1. unfold hours_trace. simpl.
        now rewrite <- (assoc_L (++)).
Qed.




Lemma hours_plan_ok w d hours : forall plan,
  hours_plan w (strftime_Y d) (strftime_j d) hours = inr plan ->
  Forall2 (hour_ok w d) hours plan.
Proof.
  induction hours as [|h hours IH]; simpl; intros plan.
  - intros [= <-]. constructor.
  - destruct (hour_plan w (strftime_Y d) (strftime_j d) h) as [e|objs] eqn:Hh;
      [discriminate|].
    destruct (hours_plan w (strftime_Y d) (strftime_j d) hours) as [e|plan'];
      [discriminate|].
    intros [= <-]. constructor; [|now apply IH].
    unfold hour_plan, listing in Hh. unfold hour_ok, hour_pattern.
    destruct (s3_glob w (hour_prefix (strftime_Y d) (strftime_j d) h +:+ "*.nc"))
      as [exc|names].
    + now destruct (is_Exception (exn_class exc)).
    + exists names. split; [reflexivity|].
      destruct (files_plan_ok w _ _ Hh) as [Hm Hf]. now split.
Qed.

(** ** The whole day *)

Lemma holds_nil st : holds st [] [].
Proof. constructor. Qed.

Lemma alloc_prefix a st : heap st `prefix_of` heap (alloc a st).2.
Proof. simpl. now apply prefix_app_r. Qed.

(** What [fetch_glm_day] does, by the outcome of the plan of the day: the
    first exception of the loops; or, on a day without any object, the
    [ValueError] of [np.concatenate]; or the three concatenations. *)
Lemma fetch_glm_day_spec w d st :
  match hours_plan w (strftime_Y d) (strftime_j d) (seq 0 24) with
  | inl e => (fetch_glm_day w d st).1 = inl e
  | inr plan =>
      net (fetch_glm_day w d st).2 = net st ++ day_trace d plan /\
      match plan_objs plan with
      | [] =>
          (fetch_glm_day w d st).1 =
            inl (Exn ValueError "need at least one array to concatenate")
      | _ :: _ =>
          exists rl ro re st',
            fetch_glm_day w d st = (inr (rl, ro, re), st') /\
            heap st' !! rl = Some (concat (map obj_lat (plan_objs plan))) /\
            heap st' !! ro = Some (concat (map obj_lon (plan_objs plan))) /\
            heap st' !! re = Some (concat (map obj_energy (plan_objs plan)))
      end
  end.
Proof.
  unfold fetch_glm_day. cbv zeta.
  pose proof (read_hours_spec w (strftime_Y d) (strftime_j d) (seq 0 24)
                [] [] [] st [] [] [] (holds_nil st) (holds_nil st) (holds_nil st))
    as H.
  destruct (hours_plan w (strftime_Y d) (strftime_j d) (seq 0 24)) as [e|plan].
  - unfold bind.
    destruct (read_hours w (strftime_Y d) (strftime_j d) (seq 0 24) ([], [], []) st)
      as [[e'|acc'] st1]; simpl in *; congruence.
  - destruct H as (la & lo & en & st1 & Hrun & Ha & Hb & Hc & _ & Hn).
    rewrite (bind_ok _ _ _ _ _ Hrun). cbv beta iota.
    rewrite !app_nil_l in Ha, Hb, Hc.
    destruct (plan_objs plan) as [|o os] eqn:Hobjs.
    + apply holds_nil_inv in Ha. subst la.
      unfold bind, np_concatenate, raise. simpl. split; [exact Hn | reflexivity].
    + set (st2 := (alloc (concat (map obj_lat (o :: os))) st1).2).
      set (st3 := (alloc (concat (map obj_lon (o :: os))) st2).2).
      set (st4 := (alloc (concat (map obj_energy (o :: os))) st3).2).
      assert (Ha2 : np_concatenate la st1 = (inr (length (heap st1)), st2))
        by (now rewrite (np_concatenate_holds _ _ _ Ha)).
      assert (Hb2 : np_concatenate lo st2 = (inr (length (heap st2)), st3)).
      { rewrite (np_concatenate_holds st2 lo (map obj_lon (o :: os)));
          [reflexivity| |discriminate].
        eapply holds_mono; [exact Hb | apply alloc_prefix]. }
      assert (Hc2 : np_concatenate en st3 = (inr (length (heap st3)), st4)).
      { rewrite (np_concatenate_holds st3 en (map obj_energy (o :: os)));
          [reflexivity| |discriminate].
        eapply holds_mono; [exact Hc|].
        etransitivity; apply alloc_prefix. }
      rewrite (bind_ok _ _ _ _ _ Ha2), (bind_ok _ _ _ _ _ Hb2),
        (bind_ok _ _ _ _ _ Hc2).
      unfold ret. split; [exact Hn|].
      eexists _, _, _, _. split; [reflexivity|].
      subst st2 st3 st4. simpl.
      repeat split.
      * apply lookup_app_l_Some, lookup_app_l_Some. now apply list_lookup_middle.
      * apply lookup_app_l_Some. now apply list_lookup_middle.
      * now apply list_lookup_middle.
Qed.

(** ** [sorted] sorts *)

Lemma str_le_iff a b : str_le a b <-> a = b \/ String_as_OT.lt a b.
Proof.
  unfold str_le, String.leb. split.
  - destruct (String.compare a b) eqn:E; intros H.
    + left. now apply String_as_OT.cmp_eq.
    + right. now apply String_as_OT.cmp_lt.
    + discriminate.
  - intros [->|Hlt].
    + pose proof (proj2 (String_as_OT.cmp_eq b b) eq_refl) as E.
      unfold String_as_OT.cmp in E. now rewrite E.
    + pose proof (proj2 (String_as_OT.cmp_lt a b) Hlt) as E.
      unfold String_as_OT.cmp in E. now rewrite E.
Qed.

Lemma str_le_trans a b c : str_le a b -> str_le b c -> str_le a c.
Proof.
  rewrite !str_le_iff. intros [->|H1] [->|H2]; auto.
  right. eapply String_as_OT.lt_trans; eassumption.
Qed.

Lemma str_le_total a b : str_le a b \/ str_le b a.
Proof. apply String.leb_total. Qed.

Lemma insert_sorted_perm x l : Permutation (x :: l) (insert_sorted x l).
Proof.
  induction l as [|y l IH]; simpl; [reflexivity|].
  destruct (String.leb x y); [reflexivity|].
  rewrite perm_swap. now constructor.
Qed.

Lemma sorted_perm l : Permutation l (sorted l).
Proof.
  induction l as [|x l IH]; simpl; [reflexivity|].
  etransitivity; [|apply insert_sorted_perm]. now constructor.
Qed.

Lemma insert_sorted_Forall (P : string -> Prop) x l :
  P x -> List.Forall P l -> List.Forall P (insert_sorted x l).
Proof.
  intros Hx Hl. induction Hl as [|y l Hy Hl IH]; simpl.
  - now repeat constructor.
  - destruct (String.leb x y); repeat constructor; assumption.
Qed.

Lemma insert_sorted_sorted x l :
  StronglySorted str_le l -> StronglySorted str_le (insert_sorted x l).
Proof.
  induction 1 as [|y l Hs IH Hy]; simpl.
  - repeat constructor.
  - destruct (String.leb x y) eqn:E.
    + constructor; [now constructor|].
      constructor; [exact E|].
      eapply List.Forall_impl; [|exact Hy].
      intros z Hz. now apply (str_le_trans x y z).
    + constructor; [exact IH|].
      apply insert_sorted_Forall; [|exact Hy].
      destruct (str_le_total x y) as [H|H]; [|exact H].
      unfold str_le in H. congruence.
Qed.

Lemma sorted_sorted l : StronglySorted str_le (sorted l).
Proof.
  induction l as [|x l IH]; simpl; [constructor|].
  now apply insert_sorted_sorted.
Qed.

(** ** Lengths *)

Lemma length_concat_map (f : Obj -> ndarray) (objs : list Obj) :
  length (concat (map f objs)) = list_sum (map (fun o => length (f o)) objs).
Proof.
  induction objs as [|o objs IH]; simpl; [reflexivity|].
  now rewrite length_app, IH.
Qed.

Lemma list_sum_ext (f g : Obj -> nat) (objs : list Obj) :
  List.Forall (fun o => f o = g o) objs ->
  list_sum (map f objs) = list_sum (map g objs).
Proof.
  induction 1 as [|o objs Ho _ IH]; simpl; [reflexivity|]. now rewrite Ho, IH.
Qed.

Lemma plan_objs_cons objs plan :
  plan_objs (objs :: plan) = map snd objs ++ plan_objs plan.
Proof. unfold plan_objs. simpl. now rewrite map_app. Qed.

Lemma plan_well_formed w d hours plan :
  schema_ok w -> Forall2 (hour_ok w d) hours plan ->
  List.Forall well_formed (plan_objs plan).
Proof.
  intros Hw H. induction H as [|h objs hours plan Hh _ IH].
  - constructor.
  - rewrite plan_objs_cons. apply List.Forall_app. split; [|exact IH].
    destruct Hh as (names & _ & _ & Hf).
    apply List.Forall_map. eapply List.Forall_impl; [|exact Hf].
    intros [p o] Ho. simpl in *. eapply Hw, Ho.
Qed.

(** A successful fetch comes from a fault-free plan with at least one
    object, and returns its three concatenations. *)
Lemma fetch_glm_day_inv w d st rl ro re st' :
  fetch_glm_day w d st = (inr (rl, ro, re), st') ->
  exists plan,
    Forall2 (hour_ok w d) (seq 0 24) plan /\
    net st' = net st ++ day_trace d plan /\
    heap st' !! rl = Some (concat (map obj_lat (plan_objs plan))) /\
    heap st' !! ro = Some (concat (map obj_lon (plan_objs plan))) /\
    heap st' !! re = Some (concat (map obj_energy (plan_objs plan))).
Proof.
  intros Hrun. pose proof (fetch_glm_day_spec w d st) as Hs.
  destruct (hours_plan w (strftime_Y d) (strftime_j d) (seq 0 24)) as [e|plan] eqn:Hp.
  - rewrite Hrun in Hs. discriminate.
  - exists plan. destruct Hs as [Hn Hs]. rewrite Hrun in Hn. simpl in Hn.
    split; [now apply hours_plan_ok|]. split; [exact Hn|].
    destruct (plan_objs plan) as [|o os].
    + rewrite Hrun in Hs. discriminate.
    + destruct Hs as (rl' & ro' & re' & st'' & Hrun' & Ha & Hb & Hc).
      rewrite Hrun in Hrun'. injection Hrun' as -> -> -> ->. auto.
Qed.

(** C1: on a day on which [fetch_glm_day] returns, the three returned
    arrays are the concatenations of the latitude, longitude and energy
    fields of the objects read, hour by hour from 00 to 23 and, within an
    hour, in the sorted (lexical) order of the listed names; with objects
    that follow the schema (three fields of one length, the event count)
    the three arrays have one length, the sum of the event counts. *)
Theorem fetch_glm_day_lengths_and_order w d st rl ro re st' :
  schema_ok w ->
  fetch_glm_day w d st = (inr (rl, ro, re), st') ->
  exists (plan : list (list (string * Obj))) (lats lons ens : ndarray),
    Forall2 (hour_ok w d) (seq 0 24) plan /\
    (forall names, StronglySorted str_le (sorted names) /\
                   Permutation names (sorted names)) /\
    heap st' !! rl = Some lats /\
    heap st' !! ro = Some lons /\
    heap st' !! re = Some ens /\
    lats = concat (map obj_lat (plan_objs plan)) /\
    lons = concat (map obj_lon (plan_objs plan)) /\
    ens = concat (map obj_energy (plan_objs plan)) /\
    length lats = list_sum (map event_count (plan_objs plan)) /\
    length lons = length lats /\
    length ens = length lats.
Proof.
  intros Hw Hrun.
  destruct (fetch_glm_day_inv w d st rl ro re st' Hrun)
    as (plan & Hplan & _ & Ha & Hb & Hc).
  pose proof (plan_well_formed w d _ _ Hw Hplan) as Hwf.
  exists plan, (concat (map obj_lat (plan_objs plan))),
    (concat (map obj_lon (plan_objs plan))),
    (concat (map obj_energy (plan_objs plan))).
  split; [exact Hplan|].
  split; [intros names; split; [apply sorted_sorted | apply sorted_perm]|].
  do 6 (split; [first [assumption | reflexivity]|]).
  rewrite !length_concat_map. split; [reflexivity|]. split.
  - apply list_sum_ext. eapply List.Forall_impl; [|exact Hwf].
    intros o [H1 H2]. now symmetry.
  - apply list_sum_ext. eapply List.Forall_impl; [|exact Hwf].
    intros o [H1 H2]. now symmetry.
Qed.

Lemma sample_world_schema : schema_ok sample_world.
Proof.
  intros p o. unfold object_arrays. cbn [s3_open xr_open_dataset sample_world].
  destruct (String.eqb p obj_a).
  { vm_compute. intros [= <-]. split; reflexivity. }
  destruct (String.eqb p obj_b).
  { vm_compute. intros [= <-]. split; reflexivity. }
  destruct (String.eqb p obj_c).
  { vm_compute. intros [= <-]. split; reflexivity. }
  discriminate.
Qed.

Lemma fetch_glm_day_lengths_and_order_witness :
  exists (plan : list (list (string * Obj))) (lats lons ens : ndarray),
    Forall2 (hour_ok sample_world new_year_2024) (seq 0 24) plan /\
    (forall names, StronglySorted str_le (sorted names) /\
                   Permutation names (sorted names)) /\
    heap (fetch_glm_day sample_world new_year_2024 init_state).2 !! 9 = Some lats /\
    heap (fetch_glm_day sample_world new_year_2024 init_state).2 !! 10 = Some lons /\
    heap (fetch_glm_day sample_world new_year_2024 init_state).2 !! 11 = Some ens /\
    lats = concat (map obj_lat (plan_objs plan)) /\
    lons = concat (map obj_lon (plan_objs plan)) /\
    ens = concat (map obj_energy (plan_objs plan)) /\
    length lats = list_sum (map event_count (plan_objs plan)) /\
    length lons = length lats /\
    length ens = length lats.
Proof.
  apply (fetch_glm_day_lengths_and_order sample_world new_year_2024 init_state
           9 10 11 (fetch_glm_day sample_world new_year_2024 init_state).2).
  - exact sample_world_schema.
  - vm_compute. reflexivity.
Defined.

(** ** Listing faults *)

Lemma listing_fault w prefix exc :
  s3_glob w (prefix +:+ "*.nc") = inl exc ->
  listing w prefix =
    inl (if is_Exception (exn_class exc)
         then Exn RuntimeError
                ("Failed to list files for " +:+ prefix +:+ ": " +:+ exn_str exc)
         else exc).
Proof.
  intros H. unfold listing. rewrite H.
  now destruct (is_Exception (exn_class exc)).
Qed.

Lemma hours_plan_fault w yr doy hours h exc :
  In h hours ->
  s3_glob w (hour_prefix yr doy h +:+ "*.nc") = inl exc ->
  exists e, hours_plan w yr doy hours = inl e.
Proof.
  intros Hin Hg. induction hours as [|h0 hours IH]; [contradiction|].
  simpl. destruct (hour_plan w yr doy h0) as [e|objs] eqn:Hh0; [eauto|].
  destruct Hin as [->|Hin].
  - unfold hour_plan in Hh0. rewrite (listing_fault _ _ _ Hg) in Hh0. discriminate.
  - destruct (IH Hin) as [e He]. rewrite He. eauto.
Qed.

Lemma files_plan_complete w objs :
  List.Forall (fun po => object_arrays w po.1 = inr po.2) objs ->
  files_plan w (map fst objs) = inr objs.
Proof.
  induction 1 as [|[p o] objs Ho _ IH]; simpl in *; [reflexivity|].
  now rewrite Ho, IH.
Qed.

Lemma hour_ok_plan w d h objs :
  hour_ok w d h objs ->
  hour_plan w (strftime_Y d) (strftime_j d) h = inr objs.
Proof.
  intros (names & Hg & Hm & Hf). unfold hour_plan, listing.
  unfold hour_pattern in Hg. rewrite Hg, <- Hm. now apply files_plan_complete.
Qed.

Lemma hours_plan_first_fault w yr doy pre rest e :
  List.Forall (fun h => exists objs, hour_plan w yr doy h = inr objs) pre ->
  hours_plan w yr doy rest = inl e ->
  hours_plan w yr doy (pre ++ rest) = inl e.
Proof.
  intros Hpre He. induction Hpre as [|h pre [objs Hh] _ IH]; simpl; [exact He|].
  now rewrite Hh, IH.
Qed.

(** C3: when listing the prefix of some hour faults, [fetch_glm_day] raises
    and returns no sequences, whatever else the bucket holds; and when the
    hours before it went through and the fault is an [Exception], what it
    raises is the [RuntimeError] whose message names that prefix. *)
Theorem fetch_glm_day_listing_fault w d st h exc :
  h < 24 ->
  s3_glob w (hour_pattern d h) = inl exc ->
  (exists e st', fetch_glm_day w d st = (inl e, st')) /\
  (is_Exception (exn_class exc) = true ->
   (forall h', h' < h -> exists objs, hour_ok w d h' objs) ->
   (fetch_glm_day w d st).1 =
     inl (Exn RuntimeError
            ("Failed to list files for "
             +:+ hour_prefix (strftime_Y d) (strftime_j d) h
             +:+ ": " +:+ exn_str exc))).
Proof.
  intros Hh Hg. unfold hour_pattern in Hg.
  pose proof (fetch_glm_day_spec w d st) as Hs. split.
  - destruct (hours_plan_fault w (strftime_Y d) (strftime_j d) (seq 0 24) h exc)
      as [e He]; [apply in_seq; lia | exact Hg |].
    rewrite He in Hs.
    destruct (fetch_glm_day w d st) as [r st']. simpl in Hs. subst r. eauto.
  - intros Hexc Hbefore.
    assert (Hsplit : seq 0 24 = seq 0 h ++ seq h (24 - h)).
    { rewrite <- seq_app. f_equal. lia. }
    assert (Hrest : hours_plan w (strftime_Y d) (strftime_j d) (seq h (24 - h)) =
                    inl (Exn RuntimeError
                           ("Failed to list files for "
                            +:+ hour_prefix (strftime_Y d) (strftime_j d) h
                            +:+ ": " +:+ exn_str exc))).
    { destruct (24 - h) as [|n] eqn:E; [lia|]. simpl.
      unfold hour_plan. rewrite (listing_fault _ _ _ Hg), Hexc. reflexivity. }
    assert (Hpre : List.Forall
                     (fun h' => exists objs,
                        hour_plan w (strftime_Y d) (strftime_j d) h' = inr objs)
                     (seq 0 h)).
    { apply List.Forall_forall. intros h' Hin. apply in_seq in Hin.
      destruct (Hbefore h') as [objs Hobjs]; [lia|].
      exists objs. now apply hour_ok_plan. }
    rewrite Hsplit, (hours_plan_first_fault _ _ _ _ _ _ Hpre Hrest) in Hs.
    exact Hs.
Qed.

Lemma fetch_glm_day_listing_fault_witness :
  (exists e st', fetch_glm_day faulty_world new_year_2024 init_state = (inl e, st')) /\
  (fetch_glm_day faulty_world new_year_2024 init_state).1 =
    inl (Exn RuntimeError
           ("Failed to list files for "
            +:+ hour_prefix (strftime_Y new_year_2024) (strftime_j new_year_2024) 3
            +:+ ": " +:+ "Access Denied")).
Proof.
  destruct (fetch_glm_day_listing_fault faulty_world new_year_2024 init_state 3
              (Exn OSError "Access Denied")) as [Hraise Hmsg].
  - lia.
  - reflexivity.
  - split; [exact Hraise|]. apply Hmsg.
    + reflexivity.
    + intros h' Hh'. exists []. exists []. split; [|split].
      * do 3 (destruct h' as [|h']; [reflexivity|]). lia.
      * reflexivity.
      * constructor.
Defined.

(** ** The requests of a day *)










(** ** A day without objects *)

Lemma hours_plan_empty w yr doy hours :
  List.Forall (fun h => s3_glob w (hour_prefix yr doy h +:+ "*.nc") = inr []) hours ->
  hours_plan w yr doy hours = inr (map (fun _ => []) hours).
Proof.
  induction 1 as [|h hours Hh _ IH]; simpl; [reflexivity|].
  unfold hour_plan, listing. rewrite Hh. simpl. now rewrite IH.
Qed.

Lemma plan_objs_empty (hours : list nat) :
  plan_objs (map (fun _ => []) hours) = [].
Proof. induction hours as [|h hours IH]; [reflexivity|]. exact IH. Qed.

(** [plot_events] on three empty arrays shows a figure whose scatter has
    no point. *)
Lemma plot_events_empty w lat lon energy date st :
  heap st !! lat = Some [] ->
  heap st !! lon = Some [] ->
  heap st !! energy = Some [] ->
  exists fig st',
    plot_events w lat lon energy date st = (inr tt, st') /\
    shown st' = shown st ++ [fig] /\
    scatter_x fig = [] /\ scatter_y fig = [] /\ scatter_c fig = [].
Proof.
  intros Hla Hlo Hen.
  unfold plot_events.
  rewrite (bind_ok _ _ _ _ _ (np_log10_positive w energy [] st Hen (List.Forall_nil _))).
  set (st1 := {| heap := heap st ++ [map (log10 w) []]; net := net st;
                 warnings := warnings st; shown := shown st |}).
  assert (Hsc : scatter lon lat (length (heap st)) st1 = (inr ([], [], []), st1)).
  { unfold scatter, bind, read. subst st1. simpl.
    rewrite (lookup_app_l_Some _ _ _ _ Hlo). simpl.
    rewrite (lookup_app_l_Some _ _ _ _ Hla). simpl.
    rewrite list_lookup_middle by reflexivity. reflexivity. }
  rewrite (bind_ok _ _ _ _ _ Hsc). cbv beta iota.
  eexists _, _. split; [reflexivity|]. simpl. auto.
Qed.

(** The requests of hours that list nothing: the listings alone. *)
Lemma hours_trace_empty pattern hours :
  hours_trace pattern hours (map (fun _ => []) hours) =
    map (fun h => NetGlob (pattern h)) hours.
Proof.
  unfold hours_trace. induction hours as [|h hours IH]; simpl; [reflexivity|].
  now rewrite IH.
Qed.

(** C2, as the code has it: on a day on which every one of the 24 hour
    listings is empty, [fetch_glm_day] does not return three empty
    sequences: it sends the 24 listings, hour 00 to hour 23, and nothing
    else, and then raises the [ValueError] of [np.concatenate] on an empty
    list; [plot_events] applied to three empty sequences shows a figure
    with an empty scatter, without error. *)
Theorem empty_day_raises_empty_plot_ok w d st :
  (forall h, h < 24 -> s3_glob w (hour_pattern d h) = inr []) ->
  (fetch_glm_day w d st).1 =
    inl (Exn ValueError "need at least one array to concatenate") /\
  net (fetch_glm_day w d st).2 =
    net st ++ map (fun h => NetGlob (hour_pattern d h)) (seq 0 24) /\
  (forall lat lon energy st0,
     heap st0 !! lat = Some [] ->
     heap st0 !! lon = Some [] ->
     heap st0 !! energy = Some [] ->
     exists fig st',
       plot_events w lat lon energy d st0 = (inr tt, st') /\
       shown st' = shown st0 ++ [fig] /\
       scatter_x fig = [] /\ scatter_y fig = [] /\ scatter_c fig = []).
Proof.
  intros Hempty.
  pose proof (fetch_glm_day_spec w d st) as Hs.
  rewrite (hours_plan_empty w _ _ (seq 0 24)) in Hs.
  - rewrite plan_objs_empty in Hs. destruct Hs as [Hn Hr].
    split; [exact Hr|]. split.
    + rewrite Hn. unfold day_trace. now rewrite hours_trace_empty.
    + intros lat lon energy st0. apply plot_events_empty.
  - apply List.Forall_forall. intros h Hin. apply in_seq in Hin.
    apply Hempty. lia.
Qed.

Lemma empty_day_raises_empty_plot_ok_witness :
  (fetch_glm_day empty_world new_year_2024 init_state).1 =
    inl (Exn ValueError "need at least one array to concatenate") /\
  net (fetch_glm_day empty_world new_year_2024 init_state).2 =
    net init_state ++ map (fun h => NetGlob (hour_pattern new_year_2024 h)) (seq 0 24) /\
  (exists fig st',
     plot_events empty_world 0 1 2 new_year_2024 empty_arrays_state
       = (inr tt, st') /\
     shown st' = [] ++ [fig] /\
     scatter_x fig = [] /\ scatter_y fig = [] /\ scatter_c fig = []).
Proof.
  destruct (empty_day_raises_empty_plot_ok empty_world new_year_2024 init_state)
    as (Hfetch & Hnet & Hplot).
  - intros h Hh. reflexivity.
  - split; [exact Hfetch|]. split; [exact Hnet|].
    apply (Hplot 0 1 2 empty_arrays_state); reflexivity.
Defined.

(** Counterexample to C2 as stated: every hour of the day lists nothing,
    and [fetch_glm_day], having listed the 24 hours, raises instead of
    returning three empty sequences. *)
Lemma empty_day_fetch_raises :
  forallb (lists_nothing empty_world new_year_2024) (seq 0 24) = true /\
  (fetch_glm_day empty_world new_year_2024 init_state).1 =
    inl (Exn ValueError "need at least one array to concatenate") /\
  length (net (fetch_glm_day empty_world new_year_2024 init_state).2) = 24.
Proof. repeat split; vm_compute; reflexivity. Qed.

(** ** Only the calendar date matters *)

(** C9: [fetch_glm_day] depends on the year, month and day of its
    argument only: two datetimes of one calendar day give the same
    prefixes and, on the same bucket, the same run. *)
Theorem fetch_glm_day_date_only w d1 d2 :
  year d1 = year d2 -> month d1 = month d2 -> day d1 = day d2 ->
  (forall h, hour_prefix (strftime_Y d1) (strftime_j d1) h =
             hour_prefix (strftime_Y d2) (strftime_j d2) h) /\
  (forall st, fetch_glm_day w d1 st = fetch_glm_day w d2 st).
Proof.
  intros Hy Hm Hd.
  assert (HY : strftime_Y d1 = strftime_Y d2)
    by (unfold strftime_Y; now rewrite Hy).
  assert (Hj : strftime_j d1 = strftime_j d2)
    by (unfold strftime_j, day_of_year; now rewrite Hy, Hm, Hd).
  split.
  - intros h. now rewrite HY, Hj.
  - intros st. unfold fetch_glm_day. now rewrite HY, Hj.
Qed.

Lemma fetch_glm_day_date_only_witness :
  (forall h, hour_prefix (strftime_Y new_year_2024) (strftime_j new_year_2024) h =
             hour_prefix (strftime_Y (Datetime 2024 1 1 13 45 10 500))
                         (strftime_j (Datetime 2024 1 1 13 45 10 500)) h) /\
  (forall st, fetch_glm_day sample_world new_year_2024 st =
              fetch_glm_day sample_world (Datetime 2024 1 1 13 45 10 500) st).
Proof.
  apply (fetch_glm_day_date_only sample_world new_year_2024
           (Datetime 2024 1 1 13 45 10 500)); reflexivity.
Defined.

(** ** The entry point *)

Lemma strptime_ymd_raises_ValueError s e :
  strptime_ymd s = inl e -> exn_class e = ValueError.
Proof.
  unfold strptime_ymd.
  destruct (match_ymd s) as [[[[y m] dd] rest]|]; [|now intros [= <-]].
  destruct (negb (String.eqb rest "")); [now intros [= <-]|].
  destruct (y =? 0); [now intros [= <-]|].
  destruct (days_in_month y m <? dd); [now intros [= <-]|discriminate].
Qed.


Lemma parse_args_positional s :
  classify s = APositional -> parse_args [s] = inr {| ns_date := s |}.
Proof.
  intros Hc. unfold parse_args, scan_args.
  destruct (String.eqb_spec s "--") as [->|_]; [discriminate|].
  now rewrite Hc.
Qed.







(** Counterexample to C4 as stated: [2024-1-1] is not in the form
    YYYY-MM-DD, yet [main] does not fail on it: it runs exactly as on
    [2024-01-01], lists the 24 hours of that day and shows the figure.
    Nor is the date with an Arabic-Indic digit in that form, and
    [strptime] reads it as the 23rd of January. *)
Lemma unpadded_date_reaches_network :
  yyyy_mm_dd "2024-1-1" = false /\
  main sample_world ["2024-1-1"] init_state =
    main sample_world ["2024-01-01"] init_state /\
  (main sample_world ["2024-1-1"] init_state).1 = inr tt /\
  globs_of (net (main sample_world ["2024-1-1"] init_state).2) =
    map (hour_pattern new_year_2024) (seq 0 24) /\
  yyyy_mm_dd arabic_indic_date = false /\
  strptime_ymd arabic_indic_date = inr (Datetime 2024 1 23 0 0 0 0).
Proof. repeat split; vm_compute; reflexivity. Qed.

(** C5, as the code has it: the argument parser does not check the date.
    An argument it takes as the positional and that is not a valid date in
    the fixed format is handed over unchanged, and the failure is the
    [ValueError] that [strptime] raises in [main], not a usage error of
    the parser. *)
Theorem main_malformed_date_is_ValueError w s st e :
  classify s = APositional ->
  strptime_ymd s = inl e ->
  parse_args [s] = inr {| ns_date := s |} /\
  exn_class e = ValueError /\
  main w [s] st = (inl e, st).
Proof.
  intros Hc Hs. split; [now apply parse_args_positional|].
  split; [now apply (strptime_ymd_raises_ValueError s)|].
  unfold main, bind, lift. rewrite (parse_args_positional s Hc). simpl.
  now rewrite Hs.
Qed.

Lemma main_malformed_date_is_ValueError_witness :
  parse_args ["2024/01/01"] = inr {| ns_date := "2024/01/01" |} /\
  exn_class (Exn ValueError "time data '2024/01/01' does not match format '%Y-%m-%d'")
    = ValueError /\
  main sample_world ["2024/01/01"] init_state =
    (inl (Exn ValueError "time data '2024/01/01' does not match format '%Y-%m-%d'"),
     init_state).
Proof.
  apply (main_malformed_date_is_ValueError sample_world "2024/01/01" init_state);
    reflexivity.
Defined.

(** Counterexample to C5 as stated: the parser accepts the malformed date
    [2024/01/01], and what [main] raises is a [ValueError], not the
    [SystemExit] of a usage error. *)
Lemma malformed_date_not_a_usage_error :
  parse_args ["2024/01/01"] = inr {| ns_date := "2024/01/01" |} /\
  (main sample_world ["2024/01/01"] init_state).1 =
    inl (Exn ValueError "time data '2024/01/01' does not match format '%Y-%m-%d'") /\
  (main sample_world ["2024/01/01"] init_state).1 <> inl (Exn SystemExit "2").
Proof.
  split; [reflexivity|]. split; [vm_compute; reflexivity|].
  vm_compute. discriminate.
Qed.

(** * Further properties *)

(** ** What a run of the fetch step leaves alone *)

Section Keeps.

Variable R : State -> State -> Prop.
Hypothesis R_refl : forall st, R st st.
Hypothesis R_trans : forall st1 st2 st3, R st1 st2 -> R st2 st3 -> R st1 st3.
Hypothesis R_alloc : forall a st, R st (alloc a st).2.
Hypothesis R_request : forall op st, R st (request op st).2.

Lemma keeps_ret {A : Type} (a : A) : keeps R (ret a).
Proof. intros st. apply R_refl. Qed.

Lemma keeps_raise {A : Type} (e : exn) : keeps R (@raise A e).
Proof. intros st. apply R_refl. Qed.

Lemma keeps_lift {A : Type} (r : Exc A) : keeps R (lift r).
Proof. intros st. apply R_refl. Qed.

Lemma keeps_read r : keeps R (read r).
Proof. intros st. rewrite read_state. apply R_refl. Qed.

Lemma keeps_bind {A B : Type} (m : Py A) (k : A -> Py B) :
  keeps R m -> (forall a, keeps R (k a)) -> keeps R (bind m k).
Proof.
  intros Hm Hk st. unfold bind. specialize (Hm st).
  destruct (m st) as [[e|a] st1]; simpl in *; [exact Hm|].
  eapply R_trans; [exact Hm | apply Hk].
Qed.

Lemma keeps_read_all refs : keeps R (read_all refs).
Proof. intros st. rewrite read_all_state. apply R_refl. Qed.

Lemma keeps_np_concatenate refs : keeps R (np_concatenate refs).
Proof.
  unfold np_concatenate. destruct refs as [|r refs]; [apply keeps_raise|].
  apply keeps_bind; [apply keeps_read_all | intros arrs st; apply R_alloc].
Qed.

Lemma keeps_ds_values ds name : keeps R (ds_values ds name).
Proof.
  unfold ds_values. destruct (ds !! name) as [a|]; [|apply keeps_raise].
  intros st. apply R_alloc.
Qed.

Lemma keeps_read_object w p acc : keeps R (read_object w p acc).
Proof.
  destruct acc as [[la lo] en]. unfold read_object.
  apply keeps_bind; [intros st; apply R_request | intros _].
  apply keeps_bind; [apply keeps_lift | intros f].
  apply keeps_bind; [apply keeps_lift | intros ds].
  apply keeps_bind; [apply keeps_ds_values | intros a].
  apply keeps_bind; [apply keeps_ds_values | intros b].
  apply keeps_bind; [apply keeps_ds_values | intros c].
  apply keeps_ret.
Qed.

Lemma keeps_read_files w files : forall acc, keeps R (read_files w files acc).
Proof.
  induction files as [|p files IH]; intros acc; simpl; [apply keeps_ret|].
  apply keeps_bind; [apply keeps_read_object | exact IH].
Qed.

Lemma keeps_list_hour w prefix : keeps R (list_hour w prefix).
Proof.
  intros st. rewrite list_hour_eq. exact (R_request (NetGlob (prefix +:+ "*.nc")) st).
Qed.

Lemma keeps_read_hour w yr doy h acc : keeps R (read_hour w yr doy h acc).
Proof.
  unfold read_hour. apply keeps_bind; [apply keeps_list_hour|].
  intros files. apply keeps_read_files.
Qed.

Lemma keeps_read_hours w yr doy hours :
  forall acc, keeps R (read_hours w yr doy hours acc).
Proof.
  induction hours as [|h hours IH]; intros acc; simpl; [apply keeps_ret|].
  apply keeps_bind; [apply keeps_read_hour | exact IH].
Qed.

Lemma keeps_fetch_glm_day w d : keeps R (fetch_glm_day w d).
Proof.
  unfold fetch_glm_day. cbv zeta.
  apply keeps_bind; [apply keeps_read_hours | intros [[la lo] en]].
  apply keeps_bind; [apply keeps_np_concatenate | intros r1].
  apply keeps_bind; [apply keeps_np_concatenate | intros r2].
  apply keeps_bind; [apply keeps_np_concatenate | intros r3].
  apply keeps_ret.
Qed.

End Keeps.

Lemma frame_refl st : frame st st.
Proof. unfold frame. auto. Qed.

Lemma frame_trans st1 st2 st3 : frame st1 st2 -> frame st2 st3 -> frame st1 st3.
Proof.
  intros (H1 & H2 & H3) (H4 & H5 & H6). unfold frame.
  split; [etransitivity; eassumption|]. split; congruence.
Qed.

Lemma frame_alloc a st : frame st (alloc a st).2.
Proof. unfold frame. simpl. split; [now apply prefix_app_r | auto]. Qed.

Lemma frame_request op st : frame st (request op st).2.
Proof. unfold frame. simpl. auto. Qed.

Lemma fetch_glm_day_keeps_frame w d : keeps frame (fetch_glm_day w d).
Proof.
  apply keeps_fetch_glm_day;
    [apply frame_refl | apply frame_trans | apply frame_alloc | apply frame_request].
Qed.

Lemma read_hours_keeps_frame w yr doy hours acc :
  keeps frame (read_hours w yr doy hours acc).
Proof.
  apply keeps_read_hours;
    [apply frame_refl | apply frame_trans | apply frame_alloc | apply frame_request].
Qed.

(** X1: whatever the bucket holds and however the run ends,
    [fetch_glm_day] writes into no array that existed before it, emits no
    warning and shows no figure. *)
Theorem fetch_glm_day_frame w d st :
  heap st `prefix_of` heap (fetch_glm_day w d st).2 /\
  warnings (fetch_glm_day w d st).2 = warnings st /\
  shown (fetch_glm_day w d st).2 = shown st.
Proof.
  exact (fetch_glm_day_keeps_frame w d st).
Qed.

(** ** The arrays a run returns *)

Lemma np_concatenate_inv refs st r st' :
  np_concatenate refs st = (inr r, st') ->
  r = length (heap st) /\ exists a, heap st' = heap st ++ [a].
Proof.
  unfold np_concatenate. destruct refs as [|r0 refs]; [discriminate|].
  intros H. apply bind_inv_ok in H. destruct H as (arrs & st1 & Hread & Halloc).
  pose proof (read_all_state (r0 :: refs) st) as Hst. rewrite Hread in Hst.
  simpl in Hst. subst st1. unfold alloc in Halloc.
  injection Halloc as <- <-. simpl. eauto.
Qed.

(** X2: the three arrays a successful [fetch_glm_day] returns are the
    three newest objects of the store, allocated after the loop over the
    hours has ended: they did not exist before the call, no two of them
    are one object, none of them is among the per-object arrays the loop
    collected in [lats], [lons] and [energy], and those arrays are still
    in the store as the loop left them. *)
Theorem fetch_glm_day_returns_new_arrays w d st rl ro re st' :
  fetch_glm_day w d st = (inr (rl, ro, re), st') ->
  exists lats lons energy st1,
    read_hours w (strftime_Y d) (strftime_j d) (seq 0 24) ([], [], []) st =
      (inr (lats, lons, energy), st1) /\
    List.Forall (fun r => r < length (heap st1)) (lats ++ lons ++ energy) /\
    heap st `prefix_of` heap st1 /\
    heap st1 `prefix_of` heap st' /\
    rl = length (heap st1) /\
    ro = S rl /\ re = S ro /\
    length (heap st') = S re /\
    length (heap st) <= rl /\
    ~ In rl (lats ++ lons ++ energy) /\
    ~ In ro (lats ++ lons ++ energy) /\
    ~ In re (lats ++ lons ++ energy).
Proof.
  unfold fetch_glm_day. cbv zeta. intros H.
  apply bind_inv_ok in H. destruct H as ([[la lo] en] & st1 & Hloop & H).
  apply bind_inv_ok in H. destruct H as (r1 & st2 & H1 & H).
  apply bind_inv_ok in H. destruct H as (r2 & st3 & H2 & H).
  apply bind_inv_ok in H. destruct H as (r3 & st4 & H3 & H).
  unfold ret in H. injection H as <- <- <- <-.
  apply np_concatenate_inv in H1, H2, H3.
  destruct H1 as [-> [a1 E1]], H2 as [-> [a2 E2]], H3 as [-> [a3 E3]].
  pose proof (read_hours_keeps_frame w (strftime_Y d) (strftime_j d) (seq 0 24)
                ([], [], []) st) as Hf.
  rewrite Hloop in Hf. destruct Hf as [Hpre _]. simpl in Hpre.
  assert (Hlive : List.Forall (fun r => r < length (heap st1)) (la ++ lo ++ en)).
  { pose proof (read_hours_spec w (strftime_Y d) (strftime_j d) (seq 0 24)
                  [] [] [] st [] [] [] (holds_nil st) (holds_nil st) (holds_nil st))
      as Hs.
    destruct (hours_plan w (strftime_Y d) (strftime_j d) (seq 0 24)) as [e|plan].
    { rewrite Hloop in Hs. discriminate. }
    destruct Hs as (la' & lo' & en' & st1' & Hrun & Ha & Hb & Hc & _).
    rewrite Hloop in Hrun. injection Hrun as <- <- <- <-.
    assert (Hlt : forall refs arrs,
              holds st1 refs arrs ->
              List.Forall (fun r => r < length (heap st1)) refs).
    { intros refs arrs Hh. induction Hh as [|r a refs arrs Hr _ IH];
        constructor; [|exact IH].
      eapply lookup_lt_Some, Hr. }
    rewrite !List.Forall_app. repeat split; eapply Hlt; eassumption. }
  assert (Hnot : forall r, length (heap st1) <= r -> ~ In r (la ++ lo ++ en)).
  { intros r Hr Hin. rewrite List.Forall_forall in Hlive.
    specialize (Hlive r Hin). lia. }
  exists la, lo, en, st1.
  split; [exact Hloop|]. split; [exact Hlive|]. split; [exact Hpre|].
  split.
  { rewrite E3, E2, E1, <- !(assoc_L (++)). now apply prefix_app_r. }
  split; [reflexivity|].
  split; [rewrite E1, length_app; simpl; lia|].
  split; [rewrite E2, E1, !length_app; simpl; lia|].
  split; [rewrite E3, E2, E1, !length_app; simpl; lia|].
  split; [apply prefix_length in Hpre; lia|].
  split; [apply Hnot; lia|].
  split; apply Hnot; rewrite ?E2, ?E1, ?length_app; simpl; lia.
Qed.

Lemma fetch_glm_day_returns_new_arrays_witness :
  exists lats lons energy st1,
    read_hours sample_world (strftime_Y new_year_2024) (strftime_j new_year_2024)
      (seq 0 24) ([], [], []) init_state = (inr (lats, lons, energy), st1) /\
    List.Forall (fun r => r < length (heap st1)) (lats ++ lons ++ energy) /\
    heap init_state `prefix_of` heap st1 /\
    heap st1 `prefix_of`
      heap (fetch_glm_day sample_world new_year_2024 init_state).2 /\
    9 = length (heap st1) /\
    10 = S 9 /\ 11 = S 10 /\
    length (heap (fetch_glm_day sample_world new_year_2024 init_state).2) = S 11 /\
    length (heap init_state) <= 9 /\
    ~ In 9 (lats ++ lons ++ energy) /\
    ~ In 10 (lats ++ lons ++ energy) /\
    ~ In 11 (lats ++ lons ++ energy).
Proof.
  apply (fetch_glm_day_returns_new_arrays sample_world new_year_2024 init_state
           9 10 11 (fetch_glm_day sample_world new_year_2024 init_state).2).
  vm_compute. reflexivity.
Defined.

(** ** Faults other than a wrapped listing fault *)

(** The first hour whose plan fails decides what the run raises. *)
Lemma fetch_glm_day_first_fault w d st h e :
  h < 24 ->
  (forall h', h' < h -> exists objs, hour_ok w d h' objs) ->
  hour_plan w (strftime_Y d) (strftime_j d) h = inl e ->
  (fetch_glm_day w d st).1 = inl e.
Proof.
  intros Hh Hbefore Hplan.
  pose proof (fetch_glm_day_spec w d st) as Hs.
  assert (Hsplit : seq 0 24 = seq 0 h ++ seq h (24 - h)).
  { rewrite <- seq_app. f_equal. lia. }
  assert (Hrest : hours_plan w (strftime_Y d) (strftime_j d) (seq h (24 - h)) = inl e).
  { destruct (24 - h) as [|n] eqn:E; [lia|]. simpl. now rewrite Hplan. }
  assert (Hpre : List.Forall
                   (fun h' => exists objs,
                      hour_plan w (strftime_Y d) (strftime_j d) h' = inr objs)
                   (seq 0 h)).
  { apply List.Forall_forall. intros h' Hin. apply in_seq in Hin.
    destruct (Hbefore h') as [objs Hobjs]; [lia|].
    exists objs. now apply hour_ok_plan. }
  rewrite Hsplit, (hours_plan_first_fault _ _ _ _ _ _ Hpre Hrest) in Hs.
  exact Hs.
Qed.

Lemma files_plan_fault w pre p post e :
  List.Forall (fun q => exists o, object_arrays w q = inr o) pre ->
  object_arrays w p = inl e ->
  files_plan w (pre ++ p :: post) = inl e.
Proof.
  intros Hpre Hp. induction Hpre as [|q pre [o Hq] _ IH]; simpl.
  - now rewrite Hp.
  - now rewrite Hq, IH.
Qed.

Lemma hour_plan_object_fault w d h names pre p post e :
  s3_glob w (hour_pattern d h) = inr names ->
  sorted names = pre ++ p :: post ->
  List.Forall (fun q => exists o, object_arrays w q = inr o) pre ->
  object_arrays w p = inl e ->
  hour_plan w (strftime_Y d) (strftime_j d) h = inl e.
Proof.
  intros Hg Hs Hpre Hp. unfold hour_plan, listing.
  unfold hour_pattern in Hg. rewrite Hg, Hs. now apply files_plan_fault.
Qed.

(** X3: only listing is guarded.  When an object cannot be read (it does
    not open, does not decode, or lacks a field), and everything before
    it in the order of the run went through, [fetch_glm_day] raises that
    very exception, not wrapped in the [RuntimeError] of a listing fault,
    and returns nothing. *)
Theorem fetch_glm_day_object_fault_unwrapped w d st h names pre p post e :
  h < 24 ->
  (forall h', h' < h -> exists objs, hour_ok w d h' objs) ->
  s3_glob w (hour_pattern d h) = inr names ->
  sorted names = pre ++ p :: post ->
  List.Forall (fun q => exists o, object_arrays w q = inr o) pre ->
  object_arrays w p = inl e ->
  (fetch_glm_day w d st).1 = inl e.
Proof.
  intros Hh Hbefore Hg Hs Hpre Hp.
  apply (fetch_glm_day_first_fault w d st h e Hh Hbefore).
  now apply (hour_plan_object_fault w d h names pre p post).
Qed.

Lemma fetch_glm_day_object_fault_unwrapped_witness :
  (fetch_glm_day broken_world new_year_2024 init_state).1 =
    inl (Exn OSError "Connection reset").
Proof.
  apply (fetch_glm_day_object_fault_unwrapped broken_world new_year_2024 init_state
           0 [obj_b; obj_a] [obj_a] obj_b []).
  - lia.
  - intros h' Hh'. lia.
  - reflexivity.
  - reflexivity.
  - constructor; [|constructor]. eexists. vm_compute. reflexivity.
  - reflexivity.
Defined.

Lemma object_arrays_missing w p f ds name :
  s3_open w p = inr f ->
  xr_open_dataset w f = inr ds ->
  first_missing ds = Some name ->
  object_arrays w p = inl (Exn KeyError name).
Proof.
  intros Ho Hd. unfold object_arrays, first_missing. rewrite Ho, Hd.
  destruct (ds !! "event_lat"); [|now intros [= <-]].
  destruct (ds !! "event_lon"); [|now intros [= <-]].
  destruct (ds !! "event_energy"); [discriminate|now intros [= <-]].
Qed.

(** X4: an object that opens and decodes but lacks one of the fields
    [event_lat], [event_lon], [event_energy] makes [fetch_glm_day] raise
    the [KeyError] of the first field missing, in that order; the fields
    of the objects read before it are dropped with the run. *)
Theorem fetch_glm_day_missing_field w d st h names pre p post f ds name :
  h < 24 ->
  (forall h', h' < h -> exists objs, hour_ok w d h' objs) ->
  s3_glob w (hour_pattern d h) = inr names ->
  sorted names = pre ++ p :: post ->
  List.Forall (fun q => exists o, object_arrays w q = inr o) pre ->
  s3_open w p = inr f ->
  xr_open_dataset w f = inr ds ->
  first_missing ds = Some name ->
  (fetch_glm_day w d st).1 = inl (Exn KeyError name).
Proof.
  intros Hh Hbefore Hg Hs Hpre Ho Hd Hm.
  apply (fetch_glm_day_first_fault w d st h _ Hh Hbefore).
  apply (hour_plan_object_fault w d h names pre p post); try assumption.
  now apply (object_arrays_missing w p f ds).
Qed.

Lemma fetch_glm_day_missing_field_witness :
  (fetch_glm_day missing_field_world new_year_2024 init_state).1 =
    inl (Exn KeyError "event_lon").
Proof.
  apply (fetch_glm_day_missing_field missing_field_world new_year_2024 init_state
           0 [obj_b; obj_a] [obj_a] obj_b [] obj_b
           (<["event_lat" := [3.5%float]]> (<["event_energy" := [1%float]]> ∅))).
  - lia.
  - intros h' Hh'. lia.
  - reflexivity.
  - reflexivity.
  - constructor; [|constructor]. eexists. vm_compute. reflexivity.
  - reflexivity.
  - reflexivity.
  - vm_compute. reflexivity.
Defined.

(** X5: [except Exception] lets a fault that is no [Exception] through.
    When the listing of an hour is ended by [KeyboardInterrupt] or
    [SystemExit] and the hours before it went through, [fetch_glm_day]
    raises that fault itself, without the wrapping message. *)
Theorem fetch_glm_day_base_exception_unwrapped w d st h exc :
  h < 24 ->
  (forall h', h' < h -> exists objs, hour_ok w d h' objs) ->
  s3_glob w (hour_pattern d h) = inl exc ->
  is_Exception (exn_class exc) = false ->
  (fetch_glm_day w d st).1 = inl exc.
Proof.
  intros Hh Hbefore Hg Hexc.
  apply (fetch_glm_day_first_fault w d st h exc Hh Hbefore).
  unfold hour_plan. unfold hour_pattern in Hg.
  now rewrite (listing_fault _ _ _ Hg), Hexc.
Qed.

Lemma fetch_glm_day_base_exception_unwrapped_witness :
  (fetch_glm_day interrupted_world new_year_2024 init_state).1 =
    inl (Exn KeyboardInterrupt "").
Proof.
  apply (fetch_glm_day_base_exception_unwrapped interrupted_world new_year_2024
           init_state 3).
  - lia.
  - intros h' Hh'. exists []. exists []. split; [|split].
    + do 3 (destruct h' as [|h']; [reflexivity|]). lia.
    + reflexivity.
    + constructor.
  - reflexivity.
  - reflexivity.
Defined.

(** ** The order of a listing does not matter *)

Lemma str_le_antisym a b : str_le a b -> str_le b a -> a = b.
Proof. apply String.leb_antisym. Qed.

Lemma str_le_refl a : str_le a a.
Proof. apply str_le_iff. now left. Qed.

(** A list has one sorted arrangement. *)
Lemma sorted_unique l1 : forall l2,
  StronglySorted str_le l1 -> StronglySorted str_le l2 ->
  Permutation l1 l2 -> l1 = l2.
Proof.
  induction l1 as [|x l1 IH]; intros l2 H1 H2 Hp.
  - now apply Permutation_nil in Hp.
  - destruct l2 as [|y l2].
    { apply Permutation_sym, Permutation_nil in Hp. discriminate. }
    apply StronglySorted_inv in H1. destruct H1 as [H1 Hx].
    apply StronglySorted_inv in H2. destruct H2 as [H2 Hy].
    assert (Hxy : x = y).
    { assert (Hin1 : In x (y :: l2)) by (eapply Permutation_in; [exact Hp | now left]).
      assert (Hin2 : In y (x :: l1))
        by (eapply Permutation_in; [apply Permutation_sym, Hp | now left]).
      apply str_le_antisym.
      - destruct Hin2 as [->|Hin2]; [apply str_le_refl|].
        rewrite List.Forall_forall in Hx. now apply Hx.
      - destruct Hin1 as [->|Hin1]; [apply str_le_refl|].
        rewrite List.Forall_forall in Hy. now apply Hy. }
    subst y. f_equal. apply IH; try assumption.
    eapply Permutation_cons_inv, Hp.
Qed.

Lemma sorted_permutation l1 l2 : Permutation l1 l2 -> sorted l1 = sorted l2.
Proof.
  intros Hp. apply sorted_unique; try apply sorted_sorted.
  etransitivity; [apply Permutation_sym, sorted_perm|].
  etransitivity; [exact Hp | apply sorted_perm].
Qed.

Lemma listing_same_bucket w1 w2 prefix :
  same_bucket w1 w2 -> listing w1 prefix = listing w2 prefix.
Proof.
  intros (_ & _ & Hg). specialize (Hg (prefix +:+ "*.nc")). unfold listing.
  destruct (s3_glob w1 (prefix +:+ "*.nc")) as [e1|l1],
           (s3_glob w2 (prefix +:+ "*.nc")) as [e2|l2]; try contradiction.
  - now subst.
  - now rewrite (sorted_permutation l1 l2 Hg).
Qed.

Lemma read_object_same_bucket w1 w2 p acc st :
  same_bucket w1 w2 -> read_object w1 p acc st = read_object w2 p acc st.
Proof.
  intros (Ho & Hd & _). destruct acc as [[la lo] en].
  unfold read_object, bind, request, lift. simpl. rewrite Ho.
  destruct (s3_open w2 p) as [e|f]; [reflexivity|]. now rewrite Hd.
Qed.

Lemma read_files_same_bucket w1 w2 files : forall acc st,
  same_bucket w1 w2 -> read_files w1 files acc st = read_files w2 files acc st.
Proof.
  induction files as [|p files IH]; intros acc st Hb; simpl; [reflexivity|].
  unfold bind. rewrite (read_object_same_bucket w1 w2 p acc st Hb).
  destruct (read_object w2 p acc st) as [[e|acc'] st1]; [reflexivity|].
  now apply IH.
Qed.

Lemma read_hour_same_bucket w1 w2 yr doy h acc st :
  same_bucket w1 w2 ->
  read_hour w1 yr doy h acc st = read_hour w2 yr doy h acc st.
Proof.
  intros Hb. unfold read_hour, bind.
  rewrite !list_hour_eq, (listing_same_bucket w1 w2 _ Hb).
  destruct (listing w2 (hour_prefix yr doy h)) as [e|files]; [reflexivity|].
  now apply read_files_same_bucket.
Qed.

Lemma read_hours_same_bucket w1 w2 yr doy hours : forall acc st,
  same_bucket w1 w2 ->
  read_hours w1 yr doy hours acc st = read_hours w2 yr doy hours acc st.
Proof.
  induction hours as [|h hours IH]; intros acc st Hb; simpl; [reflexivity|].
  unfold bind. rewrite (read_hour_same_bucket w1 w2 yr doy h acc st Hb).
  destruct (read_hour w2 yr doy h acc st) as [[e|acc'] st1]; [reflexivity|].
  now apply IH.
Qed.

(** X6: the order in which the store returns the names of an hour has no
    effect.  On two views of a bucket that differ only in the order of
    their listings (and in nothing the fetch step reads), every run of
    [fetch_glm_day] is the same: same result, same arrays, same
    requests. *)
Theorem fetch_glm_day_listing_order_irrelevant w1 w2 d st :
  same_bucket w1 w2 ->
  fetch_glm_day w1 d st = fetch_glm_day w2 d st.
Proof.
  intros Hb. unfold fetch_glm_day. cbv zeta.
  set (k := fun acc : Acc => _).
  unfold bind at 1 2.
  now rewrite (read_hours_same_bucket w1 w2 _ _ _ _ _ Hb).
Qed.

Lemma sample_permuted_same_bucket : same_bucket sample_world permuted_world.
Proof.
  split; [reflexivity|]. split; [reflexivity|].
  intros pat. cbn [s3_glob sample_world permuted_world].
  destruct (String.eqb pat "noaa-goes16/GLM-L2-LCFA/2024/001/00/*.nc").
  - apply perm_swap.
  - destruct (String.eqb pat "noaa-goes16/GLM-L2-LCFA/2024/001/05/*.nc");
      reflexivity.
Qed.

Lemma fetch_glm_day_listing_order_irrelevant_witness :
  fetch_glm_day sample_world new_year_2024 init_state =
  fetch_glm_day permuted_world new_year_2024 init_state.
Proof.
  apply (fetch_glm_day_listing_order_irrelevant sample_world permuted_world
           new_year_2024 init_state).
  exact sample_permuted_same_bucket.
Defined.

(** ** Only listed objects are opened *)

Lemma read_files_net w files : forall acc st,
  exists k,
    net (read_files w files acc st).2 = net st ++ map NetOpen (take k files).
Proof.
  induction files as [|p files IH]; intros acc st; simpl.
  - exists 0. simpl. now rewrite app_nil_r.
  - unfold bind. pose proof (read_object_net w p acc st) as Hn.
    destruct (read_object w p acc st) as [[e|acc'] st1]; simpl in *.
    + exists 1. simpl. now rewrite ?take_0.
    + destruct (IH acc' st1) as [k Hk]. exists (S k). simpl.
      now rewrite Hk, Hn, <- (assoc_L (++)).
Qed.

Lemma read_hour_opens w d h acc st :
  h < 24 ->
  exists tr,
    net (read_hour w (strftime_Y d) (strftime_j d) h acc st).2 = net st ++ tr /\
    forall p, In (NetOpen p) tr -> listed w d p.
Proof.
  intros Hh. unfold read_hour, bind. rewrite list_hour_eq. unfold listing.
  fold (hour_pattern d h).
  destruct (s3_glob w (hour_pattern d h)) as [exc|names] eqn:Hg.
  - exists [NetGlob (hour_pattern d h)]. split.
    + now destruct (is_Exception (exn_class exc)).
    + intros p [Hp|[]]. discriminate.
  - match goal with |- context [read_files w ?fs acc ?s1] =>
      destruct (read_files_net w fs acc s1) as [k Hk] end.
    exists (NetGlob (hour_pattern d h) :: map NetOpen (take k (sorted names))).
    split.
    + rewrite Hk. simpl. now rewrite <- (assoc_L (++)).
    + intros p [Hp|Hp]; [discriminate|].
      apply in_map_iff in Hp. destruct Hp as (q & [= ->] & Hq).
      exists h, names. split; [exact Hh|]. split; [exact Hg|].
      eapply Permutation_in; [apply Permutation_sym, sorted_perm|].
      apply list_elem_of_In. eapply subseteq_take. apply list_elem_of_In, Hq.
Qed.

Lemma read_hours_opens w d hours : forall acc st,
  List.Forall (fun h => h < 24) hours ->
  exists tr,
    net (read_hours w (strftime_Y d) (strftime_j d) hours acc st).2 = net st ++ tr /\
    forall p, In (NetOpen p) tr -> listed w d p.
Proof.
  induction hours as [|h hours IH]; intros acc st Hall; simpl.
  - exists []. split; [now rewrite app_nil_r | intros p []].
  - apply List.Forall_cons_iff in Hall. destruct Hall as [Hh Hall].
    unfold bind. destruct (read_hour_opens w d h acc st Hh) as (tr1 & Hn1 & Hl1).
    destruct (read_hour w (strftime_Y d) (strftime_j d) h acc st)
      as [[e|acc'] st1]; simpl in *.
    + now exists tr1.
    + destruct (IH acc' st1 Hall) as (tr2 & Hn2 & Hl2).
      exists (tr1 ++ tr2). split.
      * now rewrite Hn2, Hn1, <- (assoc_L (++)).
      * intros p Hp. apply in_app_or in Hp. destruct Hp; auto.
Qed.

(** X7: in every run, finished or aborted, each object [fetch_glm_day]
    opens is a name that one of the 24 hour listings of that day returned;
    it opens nothing else. *)
Theorem fetch_glm_day_opens_only_listed w d st :
  exists tr,
    net (fetch_glm_day w d st).2 = net st ++ tr /\
    forall p, In (NetOpen p) tr ->
      exists h names,
        h < 24 /\ s3_glob w (hour_pattern d h) = inr names /\ In p names.
Proof.
  destruct (read_hours_opens w d (seq 0 24) ([], [], []) st) as (tr & Hn & Hl).
  { apply List.Forall_forall. intros h Hin. apply in_seq in Hin. lia. }
  exists tr. split; [|exact Hl].
  unfold fetch_glm_day. cbv zeta. unfold bind.
  destruct (read_hours w (strftime_Y d) (strftime_j d) (seq 0 24) ([], [], []) st)
    as [[e|[[la lo] en]] st1]; simpl in *; [exact Hn|].
  pose proof (np_concatenate_net la st1) as H1.
  destruct (np_concatenate la st1) as [[e|r1] st2]; simpl in *; [congruence|].
  pose proof (np_concatenate_net lo st2) as H2.
  destruct (np_concatenate lo st2) as [[e|r2] st3]; simpl in *; [congruence|].
  pose proof (np_concatenate_net en st3) as H3.
  destruct (np_concatenate en st3) as [[e|r3] st4]; simpl in *; congruence.
Qed.

(** ** The render step *)

(** [np.log10] in full: one new array, and the warnings of its input. *)
Lemma np_log10_run w r a st :
  heap st !! r = Some a ->
  np_log10 w r st =
    (inr (length (heap st)),
     {| heap := heap st ++ [map (log10 w) a]; net := net st;
        warnings := warnings st ++ log_warnings a; shown := shown st |}).
Proof.
  intros Hr. unfold np_log10, bind, read, warn_if, log_warnings. rewrite Hr.
  destruct (existsb is_zero a), (existsb is_negative a); simpl;
    rewrite ?app_nil_r, <- ?(assoc_L (++)); reflexivity.
Qed.

Lemma scatter_run x y c xs ys cs st :
  heap st !! x = Some xs -> heap st !! y = Some ys -> heap st !! c = Some cs ->
  scatter x y c st =
    if negb (length xs =? length ys)
    then (inl (Exn ValueError "x and y must be the same size"), st)
    else if negb (length cs =? length xs)
    then (inl (Exn ValueError "'c' argument is inconsistent with 'x' and 'y'"), st)
    else (inr (xs, ys, cs), st).
Proof.
  intros Hx Hy Hc. unfold scatter, bind, read. rewrite Hx, Hy, Hc.
  destruct (negb (length xs =? length ys)); [reflexivity|].
  now destruct (negb (length cs =? length xs)).
Qed.

(** X8: given latitudes and longitudes of different sizes, [plot_events]
    raises the [ValueError] of [scatter] and shows no figure. *)
Theorem plot_events_size_mismatch w lat lon energy date st la lo en :
  heap st !! lat = Some la ->
  heap st !! lon = Some lo ->
  heap st !! energy = Some en ->
  length la <> length lo ->
  (plot_events w lat lon energy date st).1 =
    inl (Exn ValueError "x and y must be the same size") /\
  shown (plot_events w lat lon energy date st).2 = shown st.
Proof.
  intros Hla Hlo Hen Hne. unfold plot_events.
  rewrite (bind_ok _ _ _ _ _ (np_log10_run w energy en st Hen)).
  set (st1 := {| heap := _; net := _; warnings := _; shown := _ |}).
  assert (Hsc : scatter lon lat (length (heap st)) st1 =
                (inl (Exn ValueError "x and y must be the same size"), st1)).
  { rewrite (scatter_run lon lat (length (heap st)) lo la (map (log10 w) en) st1).
    - destruct (Nat.eqb_spec (length lo) (length la)) as [E|_]; [|reflexivity].
      now symmetry in E.
    - now apply lookup_app_l_Some.
    - now apply lookup_app_l_Some.
    - now apply list_lookup_middle. }
  rewrite (bind_err _ _ _ _ _ Hsc). split; reflexivity.
Qed.

Lemma plot_events_size_mismatch_witness :
  (plot_events sample_world 0 1 2 new_year_2024 mismatched_state).1 =
    inl (Exn ValueError "x and y must be the same size") /\
  shown (plot_events sample_world 0 1 2 new_year_2024 mismatched_state).2 =
    shown mismatched_state.
Proof.
  apply (plot_events_size_mismatch sample_world 0 1 2 new_year_2024 mismatched_state
           [1.5%float; 2.5%float] [(-70)%float] [10%float; 100%float]);
    try reflexivity.
  simpl. lia.
Defined.

(** What [plot_events] does on three arrays of one size. *)
Lemma plot_events_run w lat lon energy date st la lo en :
  heap st !! lat = Some la ->
  heap st !! lon = Some lo ->
  heap st !! energy = Some en ->
  length lo = length la ->
  length en = length la ->
  exists fig st',
    plot_events w lat lon energy date st = (inr tt, st') /\
    shown st' = shown st ++ [fig] /\
    scatter_x fig = lo /\ scatter_y fig = la /\
    scatter_c fig = map (log10 w) en /\
    title fig = "GOES-16 GLM Events " +:+ strftime_ymd date /\
    colorbar_label fig = "log10(Event energy)" /\
    warnings st' = warnings st ++ log_warnings en /\
    net st' = net st.
Proof.
  intros Hla Hlo Hen Hxy Hc. unfold plot_events.
  rewrite (bind_ok _ _ _ _ _ (np_log10_run w energy en st Hen)).
  set (st1 := {| heap := _; net := _; warnings := _; shown := _ |}).
  assert (Hsc : scatter lon lat (length (heap st)) st1 =
                (inr (lo, la, map (log10 w) en), st1)).
  { rewrite (scatter_run lon lat (length (heap st)) lo la (map (log10 w) en) st1).
    - rewrite length_map, Hxy, Hc, Nat.eqb_refl. reflexivity.
    - now apply lookup_app_l_Some.
    - now apply lookup_app_l_Some.
    - now apply list_lookup_middle. }
  rewrite (bind_ok _ _ _ _ _ Hsc). cbv beta iota.
  eexists _, _. split; [reflexivity|]. simpl. repeat split.
Qed.

(** X9: on latitudes, longitudes and energies of one size [plot_events]
    returns after showing exactly one figure: the events at (longitude,
    latitude), coloured by the base-10 logarithm of the energies, titled
    with the date.  Energies that are not positive do not stop it: they
    only add the warnings of [np.log10].  It sends no request. *)
Theorem plot_events_shows_events w lat lon energy date st la lo en :
  heap st !! lat = Some la ->
  heap st !! lon = Some lo ->
  heap st !! energy = Some en ->
  length lo = length la ->
  length en = length la ->
  exists fig st',
    plot_events w lat lon energy date st = (inr tt, st') /\
    shown st' = shown st ++ [fig] /\
    scatter_x fig = lo /\ scatter_y fig = la /\
    scatter_c fig = map (log10 w) en /\
    title fig = "GOES-16 GLM Events " +:+ strftime_ymd date /\
    colorbar_label fig = "log10(Event energy)" /\
    warnings st' = warnings st ++
      (if existsb is_zero en then [DivideByZero] else []) ++
      (if existsb is_negative en then [InvalidValue] else []) /\
    net st' = net st.
Proof. apply plot_events_run. Qed.

Lemma plot_events_shows_events_witness :
  exists fig st',
    plot_events sample_world 0 1 2 new_year_2024 unphysical_state = (inr tt, st') /\
    shown st' = shown unphysical_state ++ [fig] /\
    scatter_x fig = [(-70)%float; (-71)%float] /\
    scatter_y fig = [1.5%float; 2.5%float] /\
    scatter_c fig = map (log10 sample_world) [0%float; (-1)%float] /\
    title fig = "GOES-16 GLM Events " +:+ strftime_ymd new_year_2024 /\
    colorbar_label fig = "log10(Event energy)" /\
    warnings st' = warnings unphysical_state ++
      (if existsb is_zero [0%float; (-1)%float] then [DivideByZero] else []) ++
      (if existsb is_negative [0%float; (-1)%float] then [InvalidValue] else []) /\
    net st' = net unphysical_state.
Proof.
  apply (plot_events_shows_events sample_world 0 1 2 new_year_2024 unphysical_state
           [1.5%float; 2.5%float] [(-70)%float; (-71)%float]
           [0%float; (-1)%float]); reflexivity.
Defined.

(** ** The entry point, end to end *)

Lemma plan_lengths (objs : list Obj) :
  List.Forall well_formed objs ->
  length (concat (map obj_lon objs)) = length (concat (map obj_lat objs)) /\
  length (concat (map obj_energy objs)) = length (concat (map obj_lat objs)).
Proof.
  intros Hwf. rewrite !length_concat_map. split; apply list_sum_ext;
    (eapply List.Forall_impl; [|exact Hwf]); intros o [H1 H2]; now symmetry.
Qed.

(** X10: with a date argument that parses and a bucket whose objects
    follow the schema, whenever the fetch step returns, [main] runs to its
    end: the size check of [scatter] cannot fail, and exactly one figure
    is shown, holding every event of the day at (longitude, latitude) in
    the order they were read, under a title with the date in zero-padded
    form. *)
Theorem main_shows_the_day w s d st rl ro re st1 :
  schema_ok w ->
  classify s = APositional ->
  strptime_ymd s = inr d ->
  fetch_glm_day w d st = (inr (rl, ro, re), st1) ->
  exists fig st' plan,
    main w [s] st = (inr tt, st') /\
    shown st' = shown st ++ [fig] /\
    Forall2 (hour_ok w d) (seq 0 24) plan /\
    scatter_x fig = concat (map obj_lon (plan_objs plan)) /\
    scatter_y fig = concat (map obj_lat (plan_objs plan)) /\
    scatter_c fig = map (log10 w) (concat (map obj_energy (plan_objs plan))) /\
    length (scatter_x fig) = list_sum (map event_count (plan_objs plan)) /\
    title fig = "GOES-16 GLM Events " +:+ strftime_ymd d.
Proof.
  intros Hw Hc Hs Hrun.
  destruct (fetch_glm_day_inv w d st rl ro re st1 Hrun)
    as (plan & Hplan & _ & Ha & Hb & Hen).
  destruct (plan_lengths _ (plan_well_formed w d _ _ Hw Hplan)) as [Hlo Hle].
  destruct (plot_events_run w rl ro re d st1 _ _ _ Ha Hb Hen Hlo Hle)
    as (fig & st' & Hplot & Hshown & Hx & Hy & Hcol & Ht & _).
  exists fig, st', plan.
  pose proof (fetch_glm_day_keeps_frame w d st) as (_ & _ & Hsh).
  rewrite Hrun in Hsh. simpl in Hsh.
  split.
  { unfold main, bind, lift. rewrite (parse_args_positional s Hc). simpl.
    rewrite Hs, Hrun. exact Hplot. }
  split; [now rewrite Hshown, Hsh|].
  split; [exact Hplan|].
  do 3 (split; [assumption|]).
  split; [|exact Ht].
  rewrite Hx, Hlo. apply length_concat_map.
Qed.

Lemma main_shows_the_day_witness :
  exists fig st' plan,
    main sample_world ["2024-01-01"] init_state = (inr tt, st') /\
    shown st' = shown init_state ++ [fig] /\
    Forall2 (hour_ok sample_world new_year_2024) (seq 0 24) plan /\
    scatter_x fig = concat (map obj_lon (plan_objs plan)) /\
    scatter_y fig = concat (map obj_lat (plan_objs plan)) /\
    scatter_c fig =
      map (log10 sample_world) (concat (map obj_energy (plan_objs plan))) /\
    length (scatter_x fig) = list_sum (map event_count (plan_objs plan)) /\
    title fig = "GOES-16 GLM Events " +:+ strftime_ymd new_year_2024.
Proof.
  apply (main_shows_the_day sample_world "2024-01-01" new_year_2024 init_state
           9 10 11 (fetch_glm_day sample_world new_year_2024 init_state).2).
  - exact sample_world_schema.
  - reflexivity.
  - reflexivity.
  - vm_compute. reflexivity.
Defined.

(** The positionals [scan_args] delivers are arguments it was given. *)
Lemma scan_args_in args : forall pos extras pos' extras',
  scan_args args pos extras = inr (pos', extras') ->
  forall x, In x pos' -> In x pos \/ In x args.
Proof.
  induction args as [|a args IH]; simpl; intros pos extras pos' extras' H x Hx.
  - injection H as <- <-. now left.
  - destruct (String.eqb a "--").
    + injection H as <- <-. apply in_app_or in Hx. destruct Hx; auto.
    + destruct (classify a); try discriminate.
      * destruct (IH _ _ _ _ H x Hx) as [Hin|Hin]; [|auto].
        apply in_app_or in Hin. destruct Hin as [Hin|[->|[]]]; auto.
      * destruct (IH _ _ _ _ H x Hx); auto.
Qed.

Lemma parse_args_in argv ns :
  parse_args argv = inr ns -> In (ns_date ns) argv.
Proof.
  unfold parse_args.
  destruct (scan_args argv [] []) as [e|[pos extras]] eqn:Hscan; [discriminate|].
  destruct pos as [|x [|y pos]]; try discriminate.
  destruct extras; [|discriminate].
  intros [= <-]. simpl.
  destruct (scan_args_in argv [] [] [x] [] Hscan x) as [[]|Hin]; [now left|exact Hin].
Qed.

(** X11: whatever the command line, if [main] sends any request to the
    bucket then the parser delivered one of the arguments, unchanged, as
    the date, and that argument is a date the fixed format accepts. *)
Theorem main_network_needs_valid_date w argv st :
  net (main w argv st).2 <> net st ->
  exists ns d,
    parse_args argv = inr ns /\
    In (ns_date ns) argv /\
    strptime_ymd (ns_date ns) = inr d.
Proof.
  unfold main, bind, lift. intros Hnet.
  destruct (parse_args argv) as [e|ns] eqn:Hp; [now contradiction Hnet|].
  destruct (strptime_ymd (ns_date ns)) as [e|d] eqn:Hs; [now contradiction Hnet|].
  exists ns, d. split; [reflexivity|]. split; [now apply parse_args_in | exact Hs].
Qed.

Lemma main_network_needs_valid_date_witness :
  exists ns d,
    parse_args [arabic_indic_date] = inr ns /\
    In (ns_date ns) [arabic_indic_date] /\
    strptime_ymd (ns_date ns) = inr d.
Proof.
  apply (main_network_needs_valid_date sample_world [arabic_indic_date] init_state).
  vm_compute. discriminate.
Defined.

(** ** The dates that reach the fetch step *)

Lemma is_digit_val c : is_digit c = true -> digit_val c <= 9.
Proof.
  unfold is_digit, digit_val. intros H.
  apply andb_prop in H. destruct H as [_ H]. apply Nat.leb_le in H. lia.
Qed.

Lemma in_range_bounds lo hi c :
  in_range lo hi c = true -> lo <= digit_val c <= hi.
Proof.
  unfold in_range. intros H.
  apply andb_prop in H. destruct H as [H H2].
  apply andb_prop in H. destruct H as [_ H1].
  apply Nat.leb_le in H1, H2. lia.
Qed.

Lemma two_digits_bounds a1 b1 a2 b2 s v rest :
  two_digits a1 b1 a2 b2 s = Some (v, rest) ->
  10 * a1 + a2 <= v <= 10 * b1 + b2.
Proof.
  unfold two_digits. destruct s as [|c1 [|c2 s]]; try discriminate.
  destruct (in_range a1 b1 c1) eqn:E1; [|discriminate].
  destruct (in_range a2 b2 c2) eqn:E2; [|discriminate].
  simpl. intros [= <- _].
  apply in_range_bounds in E1, E2. lia.
Qed.

Lemma one_digit_bounds a b s v rest :
  one_digit a b s = Some (v, rest) -> a <= v <= b.
Proof.
  unfold one_digit. destruct s as [|c s]; [discriminate|].
  destruct (in_range a b c) eqn:E; [|discriminate].
  intros [= <- _]. now apply in_range_bounds.
Qed.

Lemma space_digit_bounds a b s v rest :
  space_digit a b s = Some (v, rest) -> a <= v <= b.
Proof.
  unfold space_digit. destruct s as [|c1 [|c2 s]]; try discriminate.
  destruct (Ascii.eqb c1 " "); [|discriminate].
  destruct (in_range a b c2) eqn:E; [|discriminate].
  simpl. intros [= <- _]. now apply in_range_bounds.
Qed.

Lemma decimal_value_bound cp v : decimal_value cp = Some v -> v <= 9.
Proof.
  unfold decimal_value.
  destruct (find _ digit_zeros) as [z|] eqn:E; [|discriminate].
  apply find_some in E. destruct E as [_ E]. intros [= <-].
  apply andb_prop in E. destruct E as [E1 E2].
  apply N.leb_le in E1. apply N.ltb_lt in E2. lia.
Qed.

Lemma any_digit_bound s v rest : any_digit s = Some (v, rest) -> v <= 9.
Proof.
  unfold any_digit. destruct (decode s) as [[cp r]|]; [|discriminate].
  destruct (decimal_value cp) as [v0|] eqn:E; [|discriminate].
  intros [= <- _]. now apply decimal_value_bound in E.
Qed.

(** On an ASCII digit, [\d] reads what a class of ASCII digits reads. *)
Lemma any_digit_ascii c rest :
  is_digit c = true -> any_digit (String c rest) = Some (digit_val c, rest).
Proof.
  destruct c as [b0 b1 b2 b3 b4 b5 b6 b7].
  destruct b0, b1, b2, b3, b4, b5, b6, b7; try discriminate; reflexivity.
Qed.

Lemma digit_then_any_bounds a b s v rest :
  digit_then_any a b s = Some (v, rest) -> 10 * a <= v <= 10 * b + 9.
Proof.
  unfold digit_then_any.
  destruct (one_digit a b s) as [[v1 s1]|] eqn:E1; [|discriminate].
  destruct (any_digit s1) as [[v2 s2]|] eqn:E2; [|discriminate].
  intros [= <- _]. apply one_digit_bounds in E1. apply any_digit_bound in E2. lia.
Qed.

Lemma four_digits_bound s y rest :
  four_digits s = Some (y, rest) -> y < 100 * 100.
Proof.
  unfold four_digits.
  destruct (any_digit s) as [[v1 s1]|] eqn:E1; [|discriminate].
  destruct (any_digit s1) as [[v2 s2]|] eqn:E2; [|discriminate].
  destruct (any_digit s2) as [[v3 s3]|] eqn:E3; [|discriminate].
  destruct (any_digit s3) as [[v4 s4]|] eqn:E4; [|discriminate].
  intros [= <- _].
  apply any_digit_bound in E1, E2, E3, E4. lia.
Qed.

(** A result of the ordered choice comes from one of the alternatives. *)
Lemma first_match_inv {A : Type} alts (k : nat -> string -> option A) s r :
  first_match alts k s = Some r ->
  exists a v rest, In a alts /\ a s = Some (v, rest) /\ k v rest = Some r.
Proof.
  induction alts as [|a alts IH]; simpl; [discriminate|].
  destruct (a s) as [[v rest]|] eqn:Ha.
  - destruct (k v rest) as [r'|] eqn:Hk.
    + intros [= <-]. exists a, v, rest. auto.
    + intros H. destruct (IH H) as (a' & v' & rest' & Hin & H1 & H2).
      exists a', v', rest'. auto.
  - intros H. destruct (IH H) as (a' & v' & rest' & Hin & H1 & H2).
    exists a', v', rest'. auto.
Qed.

Lemma month_alts_bounds a s v rest :
  In a month_alts -> a s = Some (v, rest) -> 1 <= v <= 12.
Proof.
  intros [<-|[<-|[<-|[]]]] H.
  - apply two_digits_bounds in H. lia.
  - apply two_digits_bounds in H. lia.
  - apply one_digit_bounds in H. lia.
Qed.

Lemma day_alts_bounds a s v rest :
  In a day_alts -> a s = Some (v, rest) -> 1 <= v <= 31.
Proof.
  intros [<-|[<-|[<-|[<-|[<-|[]]]]]] H.
  - apply two_digits_bounds in H. lia.
  - apply digit_then_any_bounds in H. lia.
  - apply two_digits_bounds in H. lia.
  - apply one_digit_bounds in H. lia.
  - apply space_digit_bounds in H. lia.
Qed.

Lemma match_ymd_bounds s y m dd rest :
  match_ymd s = Some (y, m, dd, rest) ->
  y < 100 * 100 /\ 1 <= m <= 12 /\ 1 <= dd <= 31.
Proof.
  unfold match_ymd.
  destruct (four_digits s) as [[y0 s1]|] eqn:Hy; [|discriminate].
  destruct (dash s1) as [s2|]; [|discriminate].
  intros H. apply first_match_inv in H.
  destruct H as (am & m0 & s3 & Hinm & Hm & H).
  destruct (dash s3) as [s4|]; [|discriminate].
  apply first_match_inv in H.
  destruct H as (ad & d0 & s5 & Hind & Hd & H).
  injection H as -> -> -> ->.
  split; [eapply four_digits_bound, Hy|].
  split; [eapply month_alts_bounds; eassumption|].
  eapply day_alts_bounds; eassumption.
Qed.

Lemma strptime_ymd_fields s d :
  strptime_ymd s = inr d -> calendar_date d.
Proof.
  unfold strptime_ymd.
  destruct (match_ymd s) as [[[[y m] dd] rest]|] eqn:Hm; [|discriminate].
  destruct (negb (String.eqb rest "")); [discriminate|].
  destruct (Nat.eqb_spec y 0) as [|Hy]; [discriminate|].
  destruct (Nat.ltb_spec (days_in_month y m) dd) as [|Hd]; [discriminate|].
  intros [= <-]. apply match_ymd_bounds in Hm. unfold calendar_date. simpl. lia.
Qed.

(** ** Day of year and the patterns of a day *)

Lemma length_zeros k : String.length (zeros k) = k.
Proof. induction k as [|k IH]; simpl; [reflexivity | now rewrite IH]. Qed.

Lemma length_append (a b : string) :
  String.length (a +:+ b) = String.length a + String.length b.
Proof. induction a as [|c a IH]; simpl; [reflexivity | now rewrite IH]. Qed.

Lemma length_zfill w s :
  String.length s <= w -> String.length (zfill w s) = w.
Proof. intros H. unfold zfill. rewrite length_append, length_zeros. lia. Qed.

Lemma decimal_at_most_three_chars n :
  n <= 366 -> String.length (decimal n) <= 3.
Proof.
  intros Hn.
  assert (Hall : forallb (fun k => String.length (decimal k) <=? 3) (seq 0 367) = true)
    by (vm_compute; reflexivity).
  rewrite forallb_forall in Hall.
  apply Nat.leb_le, Hall, in_seq. lia.
Qed.

Lemma day_of_year_bounds d :
  calendar_date d ->
  1 <= day_of_year d <= (if is_leap (year d) then 366 else 365).
Proof.
  intros (_ & Hm & Hd & _). unfold day_of_year.
  destruct d as [y m dd hh mi ss us]. simpl in *.
  do 13 (destruct m as [|m]; [simpl in *; destruct (is_leap y); lia|]).
  lia.
Qed.

(** X13: for every date [main] passes on, the day of the year that goes
    into the path is between 1 and 365, or 366 in a leap year, and
    [strftime("%j")] writes it with exactly three digits. *)
Theorem day_of_year_three_digits s d :
  strptime_ymd s = inr d ->
  1 <= day_of_year d <= (if is_leap (year d) then 366 else 365) /\
  String.length (strftime_j d) = 3.
Proof.
  intros Hs. pose proof (day_of_year_bounds d (strptime_ymd_fields s d Hs)) as Hb.
  split; [exact Hb|].
  unfold strftime_j. apply length_zfill, decimal_at_most_three_chars.
  destruct (is_leap (year d)); lia.
Qed.

Lemma day_of_year_three_digits_witness :
  1 <= day_of_year (Datetime 2024 12 31 0 0 0 0)
    <= (if is_leap (year (Datetime 2024 12 31 0 0 0 0)) then 366 else 365) /\
  String.length (strftime_j (Datetime 2024 12 31 0 0 0 0)) = 3.
Proof.
  apply (day_of_year_three_digits "2024-12-31" (Datetime 2024 12 31 0 0 0 0)).
  reflexivity.
Defined.

Lemma append_assoc (a b c : string) : (a +:+ b) +:+ c = a +:+ (b +:+ c).
Proof.
  induction a as [|x a IH]; [reflexivity|].
  change (String x ((a +:+ b) +:+ c) = String x (a +:+ (b +:+ c))).
  now rewrite IH.
Qed.

Lemma append_inj_l (p a b : string) : p +:+ a = p +:+ b -> a = b.
Proof.
  induction p as [|c p IH]; intros H; [exact H|].
  change (String c (p +:+ a) = String c (p +:+ b)) in H.
  injection H as H. now apply IH.
Qed.

(** X14: the 24 glob patterns of a day are pairwise different, so the loop
    over the hours reads no hour bucket twice. *)
Theorem hour_patterns_distinct d :
  List.NoDup (map (hour_pattern d) (seq 0 24)).
Proof.
  set (pre := "noaa-goes16/GLM-L2-LCFA/" +:+ strftime_Y d +:+ "/" +:+ strftime_j d +:+ "/").
  assert (Hshape : forall h, hour_pattern d h = pre +:+ (fmt_02d h +:+ "/*.nc")).
  { intros h. unfold hour_pattern, hour_prefix, pre, bucket, product.
    rewrite !append_assoc. reflexivity. }
  rewrite (map_ext _ _ Hshape), <- (map_map (fun h => fmt_02d h +:+ "/*.nc") (fun t => pre +:+ t)).
  assert (Hinj : Inj (=) (=) (fun t => pre +:+ t))
    by (intros a b; apply append_inj_l).
  apply NoDup_ListNoDup, (NoDup_fmap_2 (fun t => pre +:+ t)), NoDup_ListNoDup.
  vm_compute.
  repeat (constructor;
            [intros H; repeat (destruct H as [H|H]; [discriminate|]); exact H|]).
  constructor.
Qed.

(** ** A failed fetch, and the date in the title *)

(** X15: when the fetch step raises, [main] raises the same exception
    from the same state and goes no further: [plot_events] is not run and
    no figure is shown. *)
Theorem main_fetch_failure_shows_nothing w s d st e :
  classify s = APositional ->
  strptime_ymd s = inr d ->
  (fetch_glm_day w d st).1 = inl e ->
  main w [s] st = (inl e, (fetch_glm_day w d st).2) /\
  shown (main w [s] st).2 = shown st.
Proof.
  intros Hc Hs Hf.
  assert (Hmain : main w [s] st = (inl e, (fetch_glm_day w d st).2)).
  { unfold main, bind, lift. rewrite (parse_args_positional s Hc). simpl.
    rewrite Hs. destruct (fetch_glm_day w d st) as [r st1]. simpl in *.
    now subst r. }
  split; [exact Hmain|].
  rewrite Hmain. simpl. apply (fetch_glm_day_keeps_frame w d st).
Qed.

Lemma main_fetch_failure_shows_nothing_witness :
  main faulty_world ["2024-01-01"] init_state =
    (inl (Exn RuntimeError
            "Failed to list files for noaa-goes16/GLM-L2-LCFA/2024/001/03/: Access Denied"),
     (fetch_glm_day faulty_world new_year_2024 init_state).2) /\
  shown (main faulty_world ["2024-01-01"] init_state).2 = shown init_state.
Proof.
  apply (main_fetch_failure_shows_nothing faulty_world "2024-01-01" new_year_2024
           init_state); reflexivity.
Defined.

(** Four-digit years are written with their four digits. *)
Lemma decimal_four_digits y :
  1000 <= y < 100 * 100 ->
  exists c1 c2 c3 c4,
    decimal y = String c1 (String c2 (String c3 (String c4 ""))) /\
    is_digit c1 = true /\ is_digit c2 = true /\
    is_digit c3 = true /\ is_digit c4 = true /\
    1000 * digit_val c1 + 100 * digit_val c2 + 10 * digit_val c3 + digit_val c4 = y.
Proof.
  intros Hy.
  assert (Hall :
    forallb (fun k =>
      match decimal k with
      | String c1 (String c2 (String c3 (String c4 ""))) =>
          is_digit c1 && is_digit c2 && is_digit c3 && is_digit c4 &&
          (1000 * digit_val c1 + 100 * digit_val c2 + 10 * digit_val c3
           + digit_val c4 =? k)
      | _ => false
      end) (seq 1000 (90 * 100)) = true) by (vm_compute; reflexivity).
  rewrite forallb_forall in Hall.
  specialize (Hall y). rewrite in_seq in Hall. specialize (Hall ltac:(lia)).
  destruct (decimal y) as [|c1 [|c2 [|c3 [|c4 [|c5 t]]]]]; try discriminate.
  exists c1, c2, c3, c4.
  apply andb_prop in Hall. destruct Hall as [Hall Hval].
  apply andb_prop in Hall. destruct Hall as [Hall H4].
  apply andb_prop in Hall. destruct Hall as [Hall H3].
  apply andb_prop in Hall. destruct Hall as [H1 H2].
  apply Nat.eqb_eq in Hval. repeat split; assumption.
Qed.

Lemma match_ymd_year c1 c2 c3 c4 t :
  is_digit c1 = true -> is_digit c2 = true ->
  is_digit c3 = true -> is_digit c4 = true ->
  match_ymd (String c1 (String c2 (String c3 (String c4 t)))) =
    match dash t with
    | Some s2 =>
        first_match month_alts (fun m s3 =>
          match dash s3 with
          | Some s4 =>
              first_match day_alts (fun d s5 =>
                Some (1000 * digit_val c1 + 100 * digit_val c2
                      + 10 * digit_val c3 + digit_val c4, m, d, s5)) s4
          | None => None
          end) s2
    | None => None
    end.
Proof.
  intros H1 H2 H3 H4. unfold match_ymd, four_digits.
  now rewrite !any_digit_ascii by assumption.
Qed.

Lemma month_day_parse (y m dd : nat) :
  1 <= m <= 12 -> 1 <= dd <= 31 ->
  match dash ("-" +:+ zfill 2 (decimal m) +:+ "-" +:+ zfill 2 (decimal dd)) with
  | Some s2 =>
      first_match month_alts (fun m' s3 =>
        match dash s3 with
        | Some s4 => first_match day_alts (fun d' s5 => Some (y, m', d', s5)) s4
        | None => None
        end) s2
  | None => None
  end = Some (y, m, dd, "").
Proof.
  intros Hm Hd.
  do 13 (destruct m as [|m];
         [try lia; do 32 (destruct dd as [|dd]; [try lia; reflexivity|]); lia|]).
  lia.
Qed.

Lemma strptime_ymd_of_match s y m dd :
  match_ymd s = Some (y, m, dd, "") ->
  y <> 0 -> dd <= days_in_month y m ->
  strptime_ymd s = inr (Datetime y m dd 0 0 0 0).
Proof.
  intros Hm Hy Hd. unfold strptime_ymd. rewrite Hm. simpl.
  destruct (Nat.eqb_spec y 0) as [|_]; [contradiction|].
  destruct (Nat.ltb_spec (days_in_month y m) dd) as [|_]; [lia|reflexivity].
Qed.

(** X16: the date in the title of the figure reads back as the same day:
    for a calendar date from year 1000 on, the text [%Y-%m-%d] that
    [plot_events] puts in the title is accepted by the parser of [main]
    and gives that date again. *)
Theorem title_date_round_trip d :
  calendar_date d ->
  1000 <= year d ->
  strptime_ymd (strftime_ymd d) = inr d.
Proof.
  destruct d as [y m dd hh mi ss us]. unfold calendar_date. simpl.
  intros (Hy & Hm & Hd & -> & -> & -> & ->) Hy'.
  destruct (decimal_four_digits y) as (c1 & c2 & c3 & c4 & Hdec & D1 & D2 & D3 & D4 & Hval);
    [lia|].
  assert (Hs : strftime_ymd (Datetime y m dd 0 0 0 0) =
               String c1 (String c2 (String c3 (String c4
                 ("-" +:+ zfill 2 (decimal m) +:+ "-" +:+ zfill 2 (decimal dd)))))).
  { unfold strftime_ymd, strftime_Y. cbn [year month day]. rewrite Hdec. reflexivity. }
  rewrite Hs. apply strptime_ymd_of_match; [|lia|lia].
  rewrite (match_ymd_year c1 c2 c3 c4 _ D1 D2 D3 D4), Hval.
  apply month_day_parse; [lia|].
  split; [lia|]. destruct Hd as [_ Hd].
  assert (days_in_month y m <= 31); [|lia].
  unfold days_in_month.
  do 13 (destruct m as [|m]; [try destruct (is_leap y); lia|]). lia.
Qed.

Lemma title_date_round_trip_witness :
  strptime_ymd (strftime_ymd (Datetime 2024 2 29 0 0 0 0))
    = inr (Datetime 2024 2 29 0 0 0 0).
Proof.
  apply (title_date_round_trip (Datetime 2024 2 29 0 0 0 0)).
  - unfold calendar_date. simpl. lia.
  - simpl. lia.
Defined.
